(** * TPicoESPC3: the AT-command driver of the T-PicoC3 TOTP token

    A shallow embedding of [TPicoESPC3.py] (class [ESPC3]) and the
    properties of its command channel, reply parsers and connection
    manager.

    Layout:
    - [Py]     : the pieces of the Python runtime the driver relies on
                 (bytes, slices, [split], [strip], [int], [str(b, "utf-8")],
                 exceptions);
    - [Hw]     : the UART, the clock and the console as an explicit world
                 state, and the state-and-exception monad the methods run in;
    - [ESPC3]  : the methods of the class, one definition per method;
    - the theorems, grouped by method. *)

From Stdlib Require Import Ascii String.
From Stdlib.Strings Require Import Byte.
From Stdlib Require Import List ZArith Lia Bool.
From Stdlib Require Import DecimalString DecimalPos DecimalZ.
Import ListNotations.

Set Implicit Arguments.

(* ===================================================================== *)
(** * The Python runtime                                                  *)
(* ===================================================================== *)

Module Py.

(** [bytes] objects, and [str] objects in their UTF-8 encoding (which is
    how MicroPython stores them; [bytes(s, "utf-8")] is then the identity
    and stripping quote characters acts on single bytes). *)
Definition bytes := list byte.
Definition str := list byte.

(** A literal: [b "OK"] is [b"OK"]. *)
Definition b (s : string) : bytes := list_byte_of_string s.
Arguments b s%_string.

Definition CR : byte := x0d.
Definition LF : byte := x0a.
Definition CRLF : bytes := [CR; LF].
Definition QUOTE : byte := x22.
Definition COMMA : byte := x2c.

Fixpoint eqb_bytes (x y : bytes) : bool :=
  match x, y with
  | [], [] => true
  | c :: x', d :: y' => Byte.eqb c d && eqb_bytes x' y'
  | _, _ => false
  end.

(** [s.startswith(p)] *)
Fixpoint startswith (p s : bytes) : bool :=
  match p, s with
  | [], _ => true
  | c :: p', d :: s' => Byte.eqb c d && startswith p' s'
  | _ :: _, [] => false
  end.

(** [p in s] for bytes: [p] occurs as a contiguous run of [s]. *)
Fixpoint contains (p s : bytes) : bool :=
  startswith p s || match s with [] => false | _ :: s' => contains p s' end.

(** Slices.  Lengths are naturals, so [length s - k] saturates at zero
    exactly where Python clamps a negative index. *)
Definition slice_from (i : nat) (s : bytes) : bytes := skipn i s.           (* s[i:]   *)
Definition slice_last (k : nat) (s : bytes) : bytes :=
  skipn (length s - k) s.                                                   (* s[-k:]  *)
Definition slice_drop_last (k : nat) (s : bytes) : bytes :=
  firstn (length s - k) s.                                                  (* s[:-k]  *)
Definition slice (i j : nat) (s : bytes) : bytes :=
  firstn (j - i) (skipn i s).                                               (* s[i:j]  *)
Definition slice_from_drop_last (i k : nat) (s : bytes) : bytes :=
  firstn (length s - k - i) (skipn i s).                                    (* s[i:-k] *)

(** [s.split(sep)] for a non-empty separator: left to right, without
    overlap; always at least one piece.  [skip] counts the bytes of a
    separator that was just matched and is still to be passed over. *)
Fixpoint split_go (sep cur : bytes) (skip : nat) (s : bytes) : list bytes :=
  match s with
  | [] => [cur]
  | c :: s' =>
      match skip with
      | S k => split_go sep cur k s'
      | O =>
          if startswith sep s
          then cur :: split_go sep [] (length sep - 1) s'
          else split_go sep (cur ++ [c]) 0 s'
      end
  end.

Definition split (sep s : bytes) : list bytes := split_go sep [] 0 s.

(** [sep.join(pieces)] *)
Fixpoint join (sep : bytes) (pieces : list bytes) : bytes :=
  match pieces with
  | [] => []
  | [p] => p
  | p :: rest => p ++ sep ++ join sep rest
  end.

(** [s.strip(chars)] *)
Definition mem_byte (c : byte) (chars : bytes) : bool :=
  existsb (Byte.eqb c) chars.

Fixpoint lstrip (chars s : bytes) : bytes :=
  match s with
  | [] => []
  | c :: s' => if mem_byte c chars then lstrip chars s' else s
  end.

Definition rstrip (chars s : bytes) : bytes := rev (lstrip chars (rev s)).
Definition strip (chars s : bytes) : bytes := rstrip chars (lstrip chars s).

(** Exceptions.  Only the classes the driver raises or catches, with the
    part of the class hierarchy its [except] clauses depend on:
    [RuntimeError] and [ValueError] are subclasses of [Exception], and
    [UnicodeError] is a subclass of [ValueError]. *)
Inductive exn : Type :=
| Exception (msg : str)
| RuntimeError (msg : str)
| ValueError
| UnicodeError
| IndexError
| KeyError (key : str).

Definition is_RuntimeError (e : exn) : bool :=
  match e with RuntimeError _ => true | _ => false end.

Definition is_ValueError (e : exn) : bool :=
  match e with ValueError | UnicodeError => true | _ => false end.

Inductive result (A : Type) : Type :=
| Ok (a : A)
| Raise (e : exn).
Arguments Ok {A} a.
Arguments Raise {A} e.

(** [str(x, "utf-8")]: the decoder accepts [x] when every lead byte is
    followed by the continuation bytes it announces, and raises
    [UnicodeError] otherwise.  [need] is the number of continuation bytes
    still owed. *)
Definition utf8_lead (c : N) : option nat :=
  if (c <? 128)%N then Some 0
  else if (c <? 192)%N then None
  else if (c <? 224)%N then Some 1
  else if (c <? 240)%N then Some 2
  else if (c <? 248)%N then Some 3
  else None.

Definition utf8_is_cont (c : N) : bool := ((128 <=? c) && (c <? 192))%N.

Fixpoint utf8_check_go (need : nat) (s : bytes) : bool :=
  match s with
  | [] => Nat.eqb need 0
  | c :: s' =>
      match need with
      | S k => if utf8_is_cont (Byte.to_N c) then utf8_check_go k s' else false
      | O =>
          match utf8_lead (Byte.to_N c) with
          | Some k => utf8_check_go k s'
          | None => false
          end
      end
  end.

Definition utf8_check (s : bytes) : bool := utf8_check_go 0 s.

Definition str_utf8 (x : bytes) : result str :=
  if utf8_check x then Ok x else Raise UnicodeError.

(** [int(x)] on bytes: surrounding whitespace is ignored, then an optional
    sign and at least one decimal digit; anything else is a [ValueError].
    (Digit grouping with underscores is not modelled: such a field counts
    as non-numeric.) *)
Definition whitespace : bytes := [x20; x09; x0a; x0b; x0c; x0d].

Definition digit_val (c : byte) : option Z :=
  let n := Byte.to_N c in
  if ((48 <=? n) && (n <=? 57))%N then Some (Z.of_N n - 48)%Z else None.

Fixpoint digits_val (acc : Z) (s : bytes) : option Z :=
  match s with
  | [] => Some acc
  | c :: s' =>
      match digit_val c with
      | Some d => digits_val (10 * acc + d)%Z s'
      | None => None
      end
  end.

Definition unsigned_int (ds : bytes) : result Z :=
  match ds with
  | [] => Raise ValueError
  | _ => match digits_val 0%Z ds with
         | Some n => Ok n
         | None => Raise ValueError
         end
  end.

Definition int (x : bytes) : result Z :=
  match strip whitespace x with
  | c :: ds =>
      if Byte.eqb c x2d (* - *) then
        match unsigned_int ds with Ok n => Ok (- n)%Z | Raise e => Raise e end
      else if Byte.eqb c x2b (* + *) then unsigned_int ds
      else unsigned_int (c :: ds)
  | [] => Raise ValueError
  end.

(** ["%d" % n] *)
Definition fmt_d (n : Z) : str :=
  list_byte_of_string (NilZero.string_of_int (Z.to_int n)).

(** The values a list built by the driver may hold. *)
Inductive value : Type :=
| VStr (s : str)
| VInt (n : Z).

(** [l[i] = v]; out of range it raises [IndexError]. *)
Fixpoint list_assign {A : Type} (l : list A) (i : nat) (v : A) : result (list A) :=
  match l, i with
  | [], _ => Raise IndexError
  | _ :: l', O => Ok (v :: l')
  | x :: l', S i' =>
      match list_assign l' i' v with
      | Ok r => Ok (x :: r)
      | Raise e => Raise e
      end
  end.

(** [d.get(k, default)] on a dict written as its literal's item list. *)
Fixpoint dict_get {V : Type} (d : list (Z * V)) (k : Z) (default : V) : V :=
  match d with
  | [] => default
  | (k', v) :: d' => if Z.eqb k k' then v else dict_get d' k default
  end.

(** Sequencing of computations that may raise. *)
Definition rbind {A B} (r : result A) (k : A -> result B) : result B :=
  match r with
  | Ok a => k a
  | Raise e => Raise e
  end.

(** [l[i]]; out of range it raises [IndexError]. *)
Definition list_item {A : Type} (l : list A) (i : nat) : result A :=
  match nth_error l i with
  | Some x => Ok x
  | None => Raise IndexError
  end.

(** [d[k]] on a dict with string keys; a missing key raises [KeyError]. *)
Fixpoint dict_item {V : Type} (d : list (str * V)) (k : str) : result V :=
  match d with
  | [] => Raise (KeyError k)
  | (k', v) :: d' => if eqb_bytes k k' then Ok v else dict_item d' k
  end.

(** [IndexError], and the catch-all [except Exception]. *)
Definition is_IndexError (e : exn) : bool :=
  match e with IndexError => true | _ => false end.

Definition is_Exception (e : exn) : bool := true.

(** The characters of a [str]: one group of bytes per code point, a lead
    byte with the continuation bytes that follow it. *)
Fixpoint chars_go (cur : bytes) (s : bytes) : list bytes :=
  match s with
  | [] => match cur with [] => [] | _ :: _ => [cur] end
  | c :: s' =>
      if utf8_is_cont (Byte.to_N c) then chars_go (cur ++ [c]) s'
      else match cur with
           | [] => chars_go [c] s'
           | _ :: _ => cur :: chars_go [c] s'
           end
  end.

Definition chars (s : str) : list bytes := chars_go [] s.

(** [s.find(c)] and [s.rfind(c)] for a one-character [c]: the index of the
    first, of the last occurrence, counted in characters; -1 without one. *)
Fixpoint index_of (x : bytes) (l : list bytes) (i : Z) : Z :=
  match l with
  | [] => (-1)%Z
  | y :: l' => if eqb_bytes y x then i else index_of x l' (i + 1)%Z
  end.

Fixpoint rindex_of (x : bytes) (l : list bytes) (i found : Z) : Z :=
  match l with
  | [] => found
  | y :: l' => rindex_of x l' (i + 1)%Z (if eqb_bytes y x then i else found)
  end.

Definition str_find (c : byte) (s : str) : Z := index_of [c] (chars s) 0%Z.
Definition str_rfind (c : byte) (s : str) : Z := rindex_of [c] (chars s) 0%Z (-1)%Z.

(** [s[i:j]] on a [str], with Python's treatment of the bounds: a negative
    bound counts from the end, and both are clamped to the string. *)
Definition clamp_index (len i : Z) : Z :=
  if (i <? 0)%Z then Z.max 0 (i + len) else Z.min i len.

Definition str_slice (i j : Z) (s : str) : str :=
  let cs := chars s in
  let len := Z.of_nat (length cs) in
  let lo := clamp_index len i in
  let hi := clamp_index len j in
  concat (firstn (Z.to_nat (hi - lo)) (skipn (Z.to_nat lo) cs)).

(** [s.splitlines()]: the lines of [s], cut at LF, CR and CR LF, without
    the line ends and without an empty last line.  (The further line
    boundaries some Python implementations know, such as form feed, are
    not cut at.) *)
Fixpoint splitlines_go (cur : bytes) (s : bytes) : list bytes :=
  match s with
  | [] => match cur with [] => [] | _ :: _ => [cur] end
  | c :: s' =>
      if Byte.eqb c LF then cur :: splitlines_go [] s'
      else if Byte.eqb c CR then
        match s' with
        | d :: s'' =>
            if Byte.eqb d LF then cur :: splitlines_go [] s''
            else cur :: splitlines_go [] s'
        | [] => [cur]
        end
      else splitlines_go (cur ++ [c]) s'
  end.

Definition splitlines (s : str) : list str := splitlines_go [] s.

End Py.

Notation "x <~ r ;; k" := (Py.rbind r (fun x => k))
  (at level 61, r at next level, right associativity).

(* ===================================================================== *)
(** * The hardware: UART, clock, console                                  *)
(* ===================================================================== *)

Module Hw.
Import Py.

(** What [print] was called with. *)
Inductive printed : Type :=
| PStr (s : str)
| PBytes (x : bytes)
| PExn (e : exn).

(** The world the driver runs in.

    - [clock]   what [time.time()] last returned, in seconds;
    - [rxbuf]   the bytes waiting in the UART receive buffer;
    - [script]  what the outside does from now on: one entry per look at
                the clock, giving the seconds that have passed since the
                previous look and the bytes the module has delivered in the
                meantime.  Once the script is over the device stays silent
                and every look at the clock finds it one second later;
    - [txlog]   the argument of every [uart.write], oldest first;
    - [console] the arguments of every [print], oldest first. *)
Record World : Type := mkWorld {
  clock : Z;
  rxbuf : bytes;
  script : list (nat * bytes);
  txlog : list bytes;
  console : list (list printed)
}.

(** [uart.write(x)] *)
Definition uart_write (x : bytes) (w : World) : World :=
  mkWorld (clock w) (rxbuf w) (script w) (txlog w ++ [x]) (console w).

(** [uart.any()], as a truth value *)
Definition uart_any (w : World) : bool :=
  match rxbuf w with [] => false | _ :: _ => true end.

(** [uart.read(n)]: up to [n] of the waiting bytes *)
Definition uart_read (n : nat) (w : World) : bytes * World :=
  (firstn n (rxbuf w),
   mkWorld (clock w) (skipn n (rxbuf w)) (script w) (txlog w) (console w)).

(** [time.time()] *)
Definition time_time (w : World) : Z * World :=
  match script w with
  | [] =>
      let t := (clock w + 1)%Z in
      (t, mkWorld t (rxbuf w) [] (txlog w) (console w))
  | (dt, arrived) :: rest =>
      let t := (clock w + Z.of_nat dt)%Z in
      (t, mkWorld t (rxbuf w ++ arrived) rest (txlog w) (console w))
  end.

(** [time.sleep(n)] *)
Definition time_sleep (n : Z) (w : World) : World :=
  mkWorld (clock w + n)%Z (rxbuf w) (script w) (txlog w) (console w).

(** [print(...)] *)
Definition print (args : list printed) (w : World) : World :=
  mkWorld (clock w) (rxbuf w) (script w) (txlog w) (console w ++ [args]).

(** Everything the module has sent or will send that the driver has not
    read yet. *)
Definition pending (w : World) : bytes :=
  rxbuf w ++ concat (map snd (script w)).

(** A module that answers at once: [x] is there at the next look at the
    clock, and the driver then polls once per byte without time passing. *)
Definition quick (x : bytes) : list (nat * bytes) :=
  (0, x) :: repeat (0, []) (length x).

(** Methods run in a state-and-exception monad; the world changes made
    before an exception is raised stay. *)
Definition M (A : Type) : Type := World -> result A * World.

Definition ret {A} (a : A) : M A := fun w => (Ok a, w).
Definition raise {A} (e : exn) : M A := fun w => (Raise e, w).
Definition lift {A} (r : result A) : M A := fun w => (r, w).
Definition act (f : World -> World) : M unit := fun w => (Ok tt, f w).

Definition bind {A B} (m : M A) (k : A -> M B) : M B :=
  fun w =>
    match m w with
    | (Ok a, w') => k a w'
    | (Raise e, w') => (Raise e, w')
    end.

(** [try: body except C as e: handler e], where [catches] says which
    exceptions are instances of [C]. *)
Definition try_except {A} (body : M A) (catches : exn -> bool)
           (handler : exn -> M A) : M A :=
  fun w =>
    match body w with
    | (Ok a, w') => (Ok a, w')
    | (Raise e, w') => if catches e then handler e w' else (Raise e, w')
    end.

End Hw.

Declare Scope py_scope.
Delimit Scope py_scope with py.
Notation "x <- m ;; k" := (Hw.bind m (fun x => k))
  (at level 61, m at next level, right associativity) : py_scope.
Notation "m ;;; k" := (Hw.bind m (fun _ => k))
  (at level 61, right associativity) : py_scope.

(* ===================================================================== *)
(** * The driver                                                          *)
(* ===================================================================== *)

Module ESPC3.
Import Py Hw.
Local Open Scope py_scope.

Definition STATUS_APCONNECTED : Z := 2.
Definition STATUS_SOCKETOPEN : Z := 3.
Definition STATUS_SOCKETCLOSED : Z := 4.
Definition STATUS_NOTCONNECTED : Z := 5.

Definition MODE_STATION : Z := 1.
Definition MODE_SOFTAP : Z := 2.
Definition MODE_SOFTAPSTATION : Z := 3.

(** The attributes of the object that the methods read.  The UART is taken
    to have been opened by [__init__]; it lives in the world. *)
Record self_t : Type := mkSelf { _debug : bool }.

Definition OK_CRLF : bytes := b "OK" ++ CRLF.
Definition ERROR_CRLF : bytes := b "ERROR" ++ CRLF.

Definition ends_OK (response : bytes) : bool :=
  eqb_bytes (slice_last 4 response) OK_CRLF.
Definition ends_ERROR (response : bytes) : bool :=
  eqb_bytes (slice_last 7 response) ERROR_CRLF.

(** ** [send] *)

(** The polling loop of [send]:
<<
    while (time.time() - stamp) < timeout:
        if self._uart.any():
            response += self._uart.read(1)
            if response[-4:] == OK: break
            if response[-7:] == ERROR: break
>>
    [fuel] bounds the number of iterations; [None] is running out of it. *)
Fixpoint poll_fuel (fuel : nat) (timeout stamp : Z) (response : bytes)
         (w : World) : option (bytes * World) :=
  match fuel with
  | O => None
  | S fuel' =>
      let (t, w1) := time_time w in
      if (t - stamp <? timeout)%Z then
        if uart_any w1 then
          let (x, w2) := uart_read 1 w1 in
          let response' := response ++ x in
          if ends_OK response' then Some (response', w2)
          else if ends_ERROR response' then Some (response', w2)
          else poll_fuel fuel' timeout stamp response' w2
        else poll_fuel fuel' timeout stamp response w1
      else Some (response, w1)
  end.

(** A bound on the iterations still to come: every iteration uses up a
    script entry or, once the script is over, a second of the timeout. *)
Definition poll_bound (timeout stamp : Z) (w : World) : nat :=
  length (script w) + Z.to_nat (timeout - (clock w - stamp)).

(** The loop itself, run with fuel beyond the bound
    ([poll_fuel_enough] shows the default is never taken). *)
Definition poll (timeout stamp : Z) (response : bytes) (w : World)
  : bytes * World :=
  match poll_fuel (S (poll_bound timeout stamp w)) timeout stamp response w with
  | Some r => r
  | None => (response, w)
  end.

(** One pass through the body of the [for] loop, up to the point where the
    response is examined. *)
Definition send_attempt (self : self_t) (at_ : str) (timeout : Z) (w : World)
  : bytes * World :=
  let w := if _debug self then print [PStr (b "tx ---> "); PStr at_] w else w in
  let w := uart_write at_ w in
  let w := uart_write CRLF w in
  let (stamp, w) := time_time w in
  let (response, w) := poll timeout stamp [] w in
  let w := if _debug self then print [PStr (b "<--- rx "); PBytes response] w else w in
  (response, w).

Fixpoint send_loop (self : self_t) (n : nat) (at_ : str) (timeout : Z) : M bytes :=
  fun w =>
    match n with
    | O => raise (Exception (b "No OK response to " ++ at_)) w
    | S n' =>
        let (response, w1) := send_attempt self at_ timeout w in
        if ends_OK response
        then (Ok (slice_drop_last 4 response), w1)
        else send_loop self n' at_ timeout (time_sleep 1 w1)
    end.

(** [send(at, timeout=20, retries=3)]; [range(retries)] is empty for a
    count of zero or less. *)
Definition send (self : self_t) (at_ : str) (timeout : Z) (retries : Z) : M bytes :=
  send_loop self (Z.to_nat retries) at_ timeout.

(** The response buffers [send] examines, attempt by attempt. *)
Fixpoint send_buffers (self : self_t) (n : nat) (at_ : str) (timeout : Z)
         (w : World) : list bytes :=
  match n with
  | O => []
  | S n' =>
      let (response, w1) := send_attempt self at_ timeout w in
      response ::
        (if ends_OK response then []
         else send_buffers self n' at_ timeout (time_sleep 1 w1))
  end.

(** ** [enable_ipv6] *)
Definition enable_ipv6 (self : self_t) : M unit :=
  _ <- send self (b "AT+CIPV6=1") 3 3 ;;
  act (print [PStr (b "IPv6 enabled.")]).

(** ** [ping] *)

(** The loop over the reply lines; [None] is Python's [None]. *)
Fixpoint ping_lines (lines : list bytes) : result (option Z) :=
  match lines with
  | [] => Raise (RuntimeError (b "Couldn't ping"))
  | line :: rest =>
      if negb (Nat.eqb (length line) 0) && startswith (b "+") line then
        match (if eqb_bytes (slice 1 5 line) (b "PING")
               then int (slice_from 6 line)
               else int (slice_from 1 line)) with
        | Ok n => Ok (Some n)
        | Raise e => if is_ValueError e then Ok None else Raise e
        end
      else ping_lines rest
  end.

Definition ping_command (host : str) : str :=
  b "AT+PING=" ++ [QUOTE] ++ strip [QUOTE] host ++ [QUOTE].

Definition ping (self : self_t) (host : str) : M (option Z) :=
  enable_ipv6 self ;;;
  reply <- send self (ping_command host) 5 3 ;;
  lift (ping_lines (split CRLF reply)).

(** ** [parse_cwjap_response] *)

(** The dict the parser builds, with its nine fixed keys. *)
Record ConnectionInfo : Type := mkConnectionInfo {
  ssid : str;
  bssid : str;
  channel : Z;
  rssi : Z;
  pci_en : Z;
  reconn_interval : Z;
  listen_interval : Z;
  scan_mode : Z;
  pmf : Z
}.

Definition parse_cwjap_line (line : bytes) : result ConnectionInfo :=
  let line := split [COMMA] (slice_from 7 line) in
  f0 <~ list_item line 0 ;; s0 <~ str_utf8 f0 ;;
  f1 <~ list_item line 1 ;; s1 <~ str_utf8 f1 ;;
  f2 <~ list_item line 2 ;; n2 <~ int f2 ;;
  f3 <~ list_item line 3 ;; n3 <~ int f3 ;;
  f4 <~ list_item line 4 ;; n4 <~ int f4 ;;
  f5 <~ list_item line 5 ;; n5 <~ int f5 ;;
  f6 <~ list_item line 6 ;; n6 <~ int f6 ;;
  f7 <~ list_item line 7 ;; n7 <~ int f7 ;;
  f8 <~ list_item line 8 ;; n8 <~ int f8 ;;
  Ok (mkConnectionInfo (strip [QUOTE] s0) (strip [QUOTE] s1)
                       n2 n3 n4 n5 n6 n7 n8).

Fixpoint parse_cwjap_lines (replies : list bytes) : result (option ConnectionInfo) :=
  match replies with
  | [] => Ok None
  | line :: rest =>
      if startswith (b "+CWJAP:") line
      then info <~ parse_cwjap_line line ;; Ok (Some info)
      else parse_cwjap_lines rest
  end.

Definition parse_cwjap_response (reply : bytes) : result (option ConnectionInfo) :=
  parse_cwjap_lines (split CRLF reply).

(** ** [status], [is_connected] *)

Fixpoint status_lines (replies : list bytes) : result (option Z) :=
  match replies with
  | [] => Ok None
  | reply :: rest =>
      if startswith (b "STATUS:") reply
      then n <~ int (slice 7 8 reply) ;; Ok (Some n)
      else status_lines rest
  end.

Definition status (self : self_t) : M (option Z) :=
  reply <- send self (b "AT+CIPSTATUS") 5 3 ;;
  lift (status_lines (split CRLF reply)).

Definition is_connected (self : self_t) : M bool :=
  state <- status self ;;
  ret match state with
      | Some n => Z.eqb n STATUS_APCONNECTED || Z.eqb n STATUS_SOCKETOPEN
                  || Z.eqb n STATUS_SOCKETCLOSED
      | None => false
      end.

(** ** [mode]: the getter and the setter *)

Fixpoint mode_lines (replies : list bytes) : result Z :=
  match replies with
  | [] => Raise (RuntimeError (b "Bad response to CWMODE?"))
  | reply :: rest =>
      if startswith (b "+CWMODE:") reply
      then int (slice_from 8 reply)
      else mode_lines rest
  end.

Definition mode (self : self_t) : M Z :=
  reply <- send self (b "AT+CWMODE?") 5 3 ;;
  lift (mode_lines (split CRLF reply)).

Definition set_mode (self : self_t) (mode : Z) : M unit :=
  if negb (Z.eqb mode 1 || Z.eqb mode 2 || Z.eqb mode 3)
  then raise (RuntimeError (b "Invalid Mode"))
  else _ <- send self (b "AT+CWMODE=" ++ fmt_d mode) 3 3 ;; ret tt.

(** [if self.mode != self.MODE_STATION: self.mode = self.MODE_STATION] *)
Definition ensure_station (self : self_t) : M unit :=
  m <- mode self ;;
  if negb (Z.eqb m MODE_STATION) then set_mode self MODE_STATION else ret tt.

(** ** [join_ap] *)

Definition join_command (ssid password : str) : str :=
  b "AT+CWJAP=" ++ [QUOTE] ++ ssid ++ [QUOTE] ++ [COMMA]
    ++ [QUOTE] ++ password ++ [QUOTE].

(** The [for _ in range(3)] loop and the [raise] after it. *)
Fixpoint join_ap_loop (self : self_t) (n : nat) (ssid password : str)
  : M ConnectionInfo :=
  match n with
  | O => raise (Exception (b "Could not connect to the network."))
  | S n' =>
      reply <- send self (join_command ssid password) 15 3 ;;
      if contains (b "WIFI CONNECTED") reply && contains (b "WIFI GOT IP") reply
      then
        cwjap_reply <- send self (b "AT+CWJAP?") 10 3 ;;
        parsed_cwjap <- lift (parse_cwjap_response cwjap_reply) ;;
        match parsed_cwjap with
        | Some info => ret info
        | None => join_ap_loop self n' ssid password
        end
      else join_ap_loop self n' ssid password
  end.

Definition join_ap (self : self_t) (ssid_ password : str) : M ConnectionInfo :=
  ensure_station self ;;;
  cwjap_reply <- send self (b "AT+CWJAP?") 10 3 ;;
  parsed_cwjap <- lift (parse_cwjap_response cwjap_reply) ;;
  match parsed_cwjap with
  | Some info =>
      if eqb_bytes (ssid info) ssid_ then ret info
      else join_ap_loop self 3 ssid_ password
  | None => join_ap_loop self 3 ssid_ password
  end.

(** ** [connect] *)

(** The body of the [try]: one attempt. *)
Definition connect_attempt (self : self_t) (secrets : list (str * str))
  : M (option bool) :=
  connected <- is_connected self ;;
  (if negb connected then
     ssid_ <- lift (dict_item secrets (b "ssid")) ;;
     password <- lift (dict_item secrets (b "password")) ;;
     _ <- join_ap self ssid_ password ;; ret tt
   else ret tt) ;;;
  ret (Some true).

(** The [while retries > 0] loop, [retries] going down by one per caught
    failure; leaving the loop returns Python's [None]. *)
Fixpoint connect_loop (self : self_t) (retries : nat) (secrets : list (str * str))
  : M (option bool) :=
  match retries with
  | O => ret None
  | S retries' =>
      try_except
        (connect_attempt self secrets)
        is_RuntimeError
        (fun exp =>
           act (print [PStr (b "Failed to connect, retrying" ++ [LF]); PExn exp]) ;;;
           act (time_sleep 2) ;;;
           connect_loop self retries' secrets)
  end.

Definition connect (self : self_t) (secrets : list (str * str)) : M (option bool) :=
  connect_loop self 3 secrets.

(** ** [get_AP] *)

Definition encryption_mapping : list (Z * str) :=
  [ (0, b "Ninguna"); (1, b "WEP"); (2, b "WPA-PSK");
    (3, b "WPA2-PSK"); (4, b "WPA/WPA2-PSK"); (5, b "WPA2 Enterprise");
    (6, b "WPA3-PSK"); (7, b "WPA2/WPA3-PSK"); (8, b "WAPI-PSK"); (9, b "OWE") ]%Z.

Definition Unknown : str := b "Unknown".

Definition set_int (router : list value) (i : nat) (val : bytes) : result (list value) :=
  n <~ int val ;; list_assign router i (VInt n).

(** The body of the [try] for field [i] of a line. *)
Definition get_AP_convert (i : nat) (val : bytes) (router : list value)
  : result (list value) :=
  match i with
  | 0 => encryption_method <~ int val ;;
         list_assign router 0
           (VStr (dict_get encryption_mapping encryption_method Unknown))
  | 1 => s <~ str_utf8 val ;; list_assign router 1 (VStr (strip [QUOTE] s))
  | 2 => set_int router 2 val
  | 3 => s <~ str_utf8 val ;; list_assign router 3 (VStr s)
  | 4 => set_int router 4 val
  | 5 => set_int router 5 val
  | 6 => set_int router 6 val
  | 7 => set_int router 7 val
  | 8 => set_int router 8 val
  | 9 => set_int router 9 val
  | 10 => set_int router 10 val
  | 11 => set_int router 11 val
  | _ => Ok router
  end.

(** The [try] with its [except ValueError]. *)
Definition get_AP_field (i : nat) (val : bytes) (router : list value)
  : result (list value) :=
  match get_AP_convert i val router with
  | Ok router' => Ok router'
  | Raise e =>
      if is_ValueError e
      then s <~ str_utf8 val ;; list_assign router i (VStr (strip [QUOTE] s))
      else Raise e
  end.

(** [for i, val in enumerate(line)], from index [i] on. *)
Fixpoint get_AP_fields (i : nat) (line : list bytes) (router : list value)
  : result (list value) :=
  match line with
  | [] => Ok router
  | val :: rest =>
      router' <~ get_AP_field i val router ;;
      get_AP_fields (S i) rest router'
  end.

Definition get_AP_router (line : bytes) : result (list value) :=
  let line := split [COMMA] (slice_from_drop_last 8 1 line) in
  get_AP_fields 0 line (repeat (VStr Unknown) 12).

(** [for line in scan], the routers in the order of their lines. *)
Fixpoint get_AP_routers (scan : list bytes) : result (list (list value)) :=
  match scan with
  | [] => Ok []
  | line :: rest =>
      if startswith (b "+CWLAP:(") line then
        router <~ get_AP_router line ;;
        routers <~ get_AP_routers rest ;;
        Ok (router :: routers)
      else get_AP_routers rest
  end.

(** [for _ in range(retries)]; the [try] yields the scan lines, its
    [except RuntimeError: continue] yields nothing and moves on. *)
Fixpoint get_AP_loop (self : self_t) (n : nat) : M (list (list value)) :=
  match n with
  | O => ret []
  | S n' =>
      scan <- try_except
                (ensure_station self ;;;
                 reply <- send self (b "AT+CWLAP") 5 3 ;;
                 ret (Some (split CRLF reply)))
                is_RuntimeError
                (fun _ => ret None) ;;
      match scan with
      | Some scan => lift (get_AP_routers scan)
      | None => get_AP_loop self n'
      end
  end.

Definition get_AP (self : self_t) (retries : Z) : M (list (list value)) :=
  get_AP_loop self (Z.to_nat retries).

(** ** [remote_AP] *)

(** [[None] * 4] *)
Definition four_nones : list (option value) := repeat None 4.

(** The body of the [try]: the first four fields of the line. *)
Definition remote_AP_fields (reply : list bytes) : result (list (option value)) :=
  f0 <~ list_item reply 0 ;; s0 <~ str_utf8 f0 ;;
  f1 <~ list_item reply 1 ;; bssid_ <~ str_utf8 f1 ;;
  f2 <~ list_item reply 2 ;; channel_ <~ int f2 ;;
  f3 <~ list_item reply 3 ;; rssi_ <~ int f3 ;;
  Ok [Some (VStr (strip [QUOTE] s0)); Some (VStr bssid_);
      Some (VInt channel_); Some (VInt rssi_)].

(** The loop over the reply lines.  The list that the first [print] is
    given is recorded by its elements. *)
Fixpoint remote_AP_lines (replies : list bytes) : M (list (option value)) :=
  match replies with
  | [] => ret four_nones
  | reply :: rest =>
      if startswith (b "+CWJAP:") reply then
        let reply := split [COMMA] (slice_from 7 reply) in
        act (print (PStr (b "Response from +CWJAP:") :: map PBytes reply)) ;;;
        try_except
          (lift (remote_AP_fields reply))
          (fun e => is_ValueError e || is_IndexError e)
          (fun e =>
             act (print [PStr (b "Error parsing the response from +CWJAP:"); PExn e]) ;;;
             ret four_nones)
      else remote_AP_lines rest
  end.

Definition remote_AP (self : self_t) : M (list (option value)) :=
  state <- status self ;;
  if negb match state with
          | Some n => Z.eqb n STATUS_APCONNECTED
          | None => false
          end
  then ret four_nones
  else
    reply <- send self (b "AT+CWJAP?") 10 3 ;;
    remote_AP_lines (split CRLF reply).

(** ** [local_ip], [get_mac_address] *)

Definition STAIP_prefix : bytes := b "+CIFSR:STAIP," ++ [QUOTE].
Definition STAMAC_prefix : bytes := b "+CIFSR:STAMAC," ++ [QUOTE].

Fixpoint local_ip_lines (lines : list bytes) : result str :=
  match lines with
  | [] => Raise (RuntimeError (b "Couldn't find IP address"))
  | line :: rest =>
      if startswith STAIP_prefix line
      then str_utf8 (slice_from_drop_last 14 1 line)
      else local_ip_lines rest
  end.

Definition local_ip (self : self_t) : M str :=
  reply <- send self (b "AT+CIFSR") 20 3 ;;
  lift (local_ip_lines (split CRLF (strip CRLF reply))).

Fixpoint get_mac_address_lines (lines : list bytes) : result str :=
  match lines with
  | [] => Raise (RuntimeError (b "Couldn't find MAC address"))
  | line :: rest =>
      if startswith STAMAC_prefix line
      then str_utf8 (slice_from_drop_last 15 1 line)
      else get_mac_address_lines rest
  end.

Definition get_mac_address (self : self_t) : M str :=
  reply <- send self (b "AT+CIFSR") 20 3 ;;
  lift (get_mac_address_lines (split CRLF (strip CRLF reply))).

(** ** [get_ip] *)

(** The loop over the decoded lines; [None] is falling out of it. *)
Fixpoint get_ip_lines (lines : list str) : option str :=
  match lines with
  | [] => None
  | line :: rest =>
      if contains (b "CIFSR:STAIP") line then
        let ip_start := (str_find QUOTE line + 1)%Z in
        let ip_end := str_rfind QUOTE line in
        Some (str_slice ip_start ip_end line)
      else get_ip_lines rest
  end.

(** The formatted message of the [except] clause is recorded by its
    parts: the text and the exception put into it. *)
Definition get_ip (self : self_t) : M (option str) :=
  try_except
    (response <- send self (b "AT+CIFSR") 20 3 ;;
     response <- lift (str_utf8 response) ;;
     ret (get_ip_lines (splitlines response)))
    is_Exception
    (fun e =>
       act (print [PStr (b "Error getting the IP: "); PExn e]) ;;;
       ret None).

End ESPC3.

(* ===================================================================== *)
(** * Notions used to state the properties                                *)
(* ===================================================================== *)

Module Behaviour.
Import Py Hw ESPC3.

(** A response buffer is [clean] when none of its proper prefixes ends
    with [OK\r\n]: the sentinel, if it is there at all, came last. *)
Definition clean (r : bytes) : Prop :=
  forall k, k < length r -> ends_OK (firstn k r) = false.

(** What field [i] of a line leaves at position [i] of the record, when
    it can be decoded. *)
Definition kept_value (i : nat) (val : bytes) : value :=
  match i with
  | 0 => match int val with
         | Ok n => VStr (dict_get encryption_mapping n Unknown)
         | Raise _ => VStr (strip [QUOTE] val)
         end
  | 1 => VStr (strip [QUOTE] val)
  | 3 => VStr val
  | _ => match int val with
         | Ok n => VInt n
         | Raise _ => VStr (strip [QUOTE] val)
         end
  end.

(** What handling field [i] does to the record: twelve entries still,
    the kept value at position [i], the other positions as they were. *)
Definition field_post (i : nat) (val : bytes) (router router' : list value) : Prop :=
  length router' = 12
  /\ nth_error router' i = Some (kept_value i val)
  /\ (forall j, j <> i -> nth_error router' j = nth_error router j).

(** [sent_only P w w']: between [w] and [w'] the driver wrote only things
    that satisfy [P]. *)
Definition sent_only (P : bytes -> Prop) (w w' : World) : Prop :=
  exists sent, txlog w' = txlog w ++ sent /\ Forall P sent.

(** Not a join command: it does not start with [AT+CWJAP=]. *)
Definition not_join (x : bytes) : Prop := startswith (b "AT+CWJAP=") x = false.

(** What the [except] clause of [connect] does to the world: the message
    and the exception are printed, and two seconds pass. *)
Definition after_failure (exp : exn) (w : World) : World :=
  time_sleep 2
    (print [PStr (b "Failed to connect, retrying" ++ [LF]); PExn exp] w).

(** A string between quote characters, and the join-status line the
    module sends for an access point: [+CWJAP:] followed by the quoted
    ssid and bssid and by seven printed integers, with commas between. *)
Definition quoted (s : str) : bytes := [QUOTE] ++ s ++ [QUOTE].

Definition cwjap_line (ssid_ bssid_ : str) (numbers : list Z) : bytes :=
  b "+CWJAP:" ++ join [COMMA] (quoted ssid_ :: quoted bssid_ :: map fmt_d numbers).

(** The encryption table as the specification words it. *)
Definition spec_encryption_label (n : Z) : str :=
  match n with
  | 0 => b "none"
  | 1 => b "WEP"
  | 2 => b "WPA-PSK"
  | 3 => b "WPA2-PSK"
  | 4 => b "WPA/WPA2-PSK"
  | 5 => b "WPA2-Enterprise"
  | 6 => b "WPA3-PSK"
  | 7 => b "WPA2/WPA3-PSK"
  | 8 => b "WAPI-PSK"
  | 9 => b "OWE"
  | _ => b "Unknown"
  end%Z.

(** The world with its console replaced; two worlds have the [same_io]
    when they differ in nothing but what was printed. *)
Definition set_console (c : list (list printed)) (w : World) : World :=
  mkWorld (clock w) (rxbuf w) (script w) (txlog w) c.

Definition same_io (w1 w2 : World) : Prop :=
  set_console [] w1 = set_console [] w2.

(** The join commands in the write log: the writes that start with
    [AT+CWJAP=]. *)
Definition is_join (x : bytes) : bool := startswith (b "AT+CWJAP=") x.

Definition join_count (w : World) : nat := length (filter is_join (txlog w)).

(** A scan line is decodable when each of its comma-separated fields is
    valid UTF-8. *)
Definition is_cwlap (line : bytes) : bool := startswith (b "+CWLAP:(") line.

Definition decodable_line (line : bytes) : Prop :=
  Forall (fun f => utf8_check f = true)
         (split [COMMA] (slice_from_drop_last 8 1 line)).


(** An ASCII byte. *)
Definition ascii (c : byte) : Prop := (Byte.to_N c <? 128)%N = true.

End Behaviour.

(* ===================================================================== *)
(** * Modules and replies to run the driver against                       *)
(* ===================================================================== *)

Module Scenario.
Import Py Hw ESPC3.

(** A module that says [hello] and [OK] after a first, failed exchange. *)
Definition busy_then_ok : World :=
  mkWorld 0 [] (quick ERROR_CRLF ++ quick (b "hello" ++ CRLF ++ OK_CRLF)) [] [].

(** A module that refuses once and then stays silent. *)
Definition error_then_silent : World :=
  mkWorld 0 [] (quick ERROR_CRLF) [] [].

(** The reply of scenario 2:
    [+CWJAP:"home","aa:bb:cc:dd:ee:ff",6,-40,1,1,3,0,1], an empty line. *)
Definition home_fields : list bytes :=
  [ [QUOTE] ++ b "home" ++ [QUOTE]; [QUOTE] ++ b "aa:bb:cc:dd:ee:ff" ++ [QUOTE];
    b "6"; b "-40"; b "1"; b "1"; b "3"; b "0"; b "1" ].

(** The payload [send] returns for it. *)
Definition home_reply : bytes :=
  b "+CWJAP:" ++ join [COMMA] home_fields ++ CRLF ++ CRLF.

(** A module that reports the status [n]. *)
Definition reports_status (n : Z) : World :=
  mkWorld 0 [] (quick (b "STATUS:" ++ fmt_d n ++ CRLF ++ OK_CRLF)) [] [].

(** A scan line [+CWLAP:(<ecn>,"MyNet",<rssi>,"11:22:33:44:55:66",6,0,0,0,0,0,0,0)]. *)
Definition cwlap_line (ecn rssi_ : bytes) : bytes :=
  b "+CWLAP:(" ++ ecn ++ [COMMA; QUOTE] ++ b "MyNet" ++ [QUOTE; COMMA]
    ++ rssi_ ++ [COMMA; QUOTE] ++ b "11:22:33:44:55:66" ++ [QUOTE]
    ++ b ",6,0,0,0,0,0,0,0)".

(** A module in station mode whose scan reports one network, with [rssi_]
    as its signal strength field. *)
Definition scan_world (rssi_ : bytes) : World :=
  mkWorld 0 [] (quick (b "+CWMODE:1" ++ CRLF ++ CRLF ++ OK_CRLF)
                ++ quick (cwlap_line (b "3") rssi_ ++ CRLF ++ CRLF ++ OK_CRLF))
          [] [].

(** A module in station mode that is joined to [home]. *)
Definition joined_home : World :=
  mkWorld 0 []
          (quick (b "+CWMODE:1" ++ CRLF ++ CRLF ++ OK_CRLF)
           ++ quick (home_reply ++ OK_CRLF))
          [] [].

(** The record that reply stands for. *)
Definition home_info : ConnectionInfo :=
  {| ssid := b "home"; bssid := b "aa:bb:cc:dd:ee:ff";
     channel := 6; rssi := -40; pci_en := 1;
     reconn_interval := 1; listen_interval := 3;
     scan_mode := 0; pmf := 1 |}.

(** A module in station mode that never answers the scan command. *)
Definition scan_unanswered : World :=
  mkWorld 0 [] (quick (b "+CWMODE:1" ++ CRLF ++ CRLF ++ OK_CRLF)) [] [].

(** A module that acknowledges every mode query without reporting a
    mode. *)
Definition mode_unreported : World :=
  mkWorld 0 [] (quick OK_CRLF ++ quick OK_CRLF ++ quick OK_CRLF) [] [].

(** A module that reports status 5 (not connected) and then acknowledges
    the mode query without reporting a mode, three times over. *)
Definition never_in_mode : World :=
  let round := quick (b "STATUS:5" ++ CRLF ++ OK_CRLF) ++ quick OK_CRLF in
  mkWorld 0 [] (round ++ round ++ round) [] [].

(** The [secrets] dictionary for that access point. *)
Definition home_secrets : list (str * str) :=
  [(b "ssid", b "home"); (b "password", b "pw")].



(** The two lines a module answers [AT+CIFSR] with, and a module that
    gives that answer. *)
Definition address_reply : bytes :=
  STAIP_prefix ++ b "192.168.1.7" ++ [QUOTE] ++ CRLF
  ++ STAMAC_prefix ++ b "aa:bb:cc:dd:ee:ff" ++ [QUOTE].

Definition address_world : World :=
  mkWorld 0 [] (quick (address_reply ++ CRLF ++ CRLF ++ OK_CRLF)) [] [].

(** A module that reports status 2 and is joined to [home]. *)
Definition connected_home : World :=
  mkWorld 0 []
          (quick (b "STATUS:2" ++ CRLF ++ OK_CRLF) ++ quick (home_reply ++ OK_CRLF))
          [] [].

End Scenario.

(* ===================================================================== *)
(** * Facts about the runtime                                             *)
(* ===================================================================== *)

Unset Implicit Arguments.

Module PyFacts.
Import Py Behaviour Scenario.

(** The cases [i = 0], ..., [i = n - 1] and [i >= n]. *)
Ltac cases_upto n i :=
  match n with
  | O => idtac
  | S ?m => destruct i as [|i]; [|cases_upto m i]
  end.


Example split_crlf :
  split CRLF (b "+CWMODE:1" ++ CRLF ++ CRLF) = [b "+CWMODE:1"; []; []].
Proof. reflexivity. Qed.

Example split_empty : split [COMMA] [] = [[]].
Proof. reflexivity. Qed.

Example int_examples :
  int (b " -40 ") = Ok (-40)%Z /\ int (b "+7") = Ok 7%Z
  /\ int (b "4x") = Raise ValueError /\ int (b "-") = Raise ValueError
  /\ int [] = Raise ValueError.
Proof. repeat split; reflexivity. Qed.

Example str_utf8_examples :
  str_utf8 (b "MyNet") = Ok (b "MyNet")
  /\ str_utf8 [xc3; xa9] = Ok [xc3; xa9]
  /\ str_utf8 [xff] = Raise UnicodeError
  /\ str_utf8 [xc3] = Raise UnicodeError.
Proof. repeat split; reflexivity. Qed.

Example strip_example :
  strip [QUOTE] ([QUOTE; QUOTE] ++ b "a" ++ [QUOTE] ++ b "b" ++ [QUOTE]) = b "a" ++ [QUOTE] ++ b "b".
Proof. reflexivity. Qed.

Lemma byte_eqb_eq (c d : byte) : Byte.eqb c d = true <-> c = d.
Proof.
  split.
  - apply Byte.byte_dec_bl.
  - apply Byte.byte_dec_lb.
Qed.

Lemma byte_eqb_refl (c : byte) : Byte.eqb c c = true.
Proof. now apply byte_eqb_eq. Qed.

Lemma eqb_bytes_eq (x y : bytes) : eqb_bytes x y = true <-> x = y.
Proof.
  revert y; induction x as [|c x IH]; intros [|d y]; simpl; try easy.
  rewrite andb_true_iff, byte_eqb_eq, IH.
  split; [intros [-> ->]; reflexivity | intros [= -> ->]; auto].
Qed.

Lemma eqb_bytes_refl (x : bytes) : eqb_bytes x x = true.
Proof. now apply eqb_bytes_eq. Qed.


Lemma startswith_app (p t : bytes) : startswith p (p ++ t) = true.
Proof.
  induction p as [|c p IH]; simpl; [reflexivity|].
  now rewrite byte_eqb_refl, IH.
Qed.

Lemma startswith_spec (p s : bytes) :
  startswith p s = true <-> exists t, s = p ++ t.
Proof.
  split.
  - revert s; induction p as [|c p IH]; intros s H.
    + now exists s.
    + destruct s as [|d s]; simpl in H; [discriminate|].
      apply andb_true_iff in H as [Hc Hp].
      apply byte_eqb_eq in Hc as ->.
      destruct (IH _ Hp) as [t ->]. now exists t.
  - intros [t ->]. apply startswith_app.
Qed.

Lemma contains_here (p s : bytes) :
  startswith p s = true -> contains p s = true.
Proof. intros H. destruct s; simpl; now rewrite H. Qed.

Lemma contains_later (p s : bytes) (c : byte) :
  contains p s = true -> contains p (c :: s) = true.
Proof. intros H. change (startswith p (c :: s) || contains p s = true).
  rewrite H. apply orb_true_r. Qed.

Lemma contains_spec (p s : bytes) :
  contains p s = true <-> exists pre post, s = pre ++ p ++ post.
Proof.
  split.
  - induction s as [|c s IH]; simpl; intros H.
    + rewrite orb_false_r in H. apply startswith_spec in H as [t Ht].
      now exists [], t.
    + apply orb_true_iff in H as [H|H].
      * apply startswith_spec in H as [t Ht]. now exists [], t.
      * destruct (IH H) as (pre & post & ->). now exists (c :: pre), post.
  - intros (pre & post & ->).
    induction pre as [|c pre IH]; cbn [app].
    + apply contains_here, startswith_app.
    + apply contains_later, IH.
Qed.

(** [s[-k:] == p] for [k] the length of [p] says that [s] ends with [p]. *)
Lemma slice_last_app (pre p : bytes) :
  slice_last (length p) (pre ++ p) = p.
Proof.
  unfold slice_last. rewrite length_app.
  replace (length pre + length p - length p) with (length pre + 0) by lia.
  rewrite skipn_app, Nat.add_0_r, skipn_all.
  replace (length pre - length pre) with 0 by lia. reflexivity.
Qed.

Lemma ends_with_spec (p s : bytes) :
  eqb_bytes (slice_last (length p) s) p = true <-> exists pre, s = pre ++ p.
Proof.
  rewrite eqb_bytes_eq. split.
  - intros H. exists (firstn (length s - length p) s).
    rewrite <- (firstn_skipn (length s - length p) s) at 1.
    f_equal. exact H.
  - intros [pre ->]. apply slice_last_app.
Qed.

Lemma slice_drop_last_app (pre p : bytes) :
  slice_drop_last (length p) (pre ++ p) = pre.
Proof.
  unfold slice_drop_last. rewrite length_app.
  replace (length pre + length p - length p) with (length pre + 0) by lia.
  rewrite firstn_app, Nat.add_0_r, firstn_all.
  replace (length pre - length pre) with 0 by lia.
  simpl. apply app_nil_r.
Qed.

End PyFacts.

(* ===================================================================== *)
(** * Decimal numerals: [int] reads back what ["%d"] prints               *)
(* ===================================================================== *)

Module DecimalFacts.
Import Py PyFacts.

(** The digits of a decimal numeral, as bytes. *)
Definition digits (d : Decimal.uint) : bytes :=
  list_byte_of_string (NilEmpty.string_of_uint d).

(** One digit of the Horner scheme: reading the digit [k] in front of
    [d] turns the accumulator [acc] into [acc'] = 10 * [acc] + [k]. *)
Ltac horner_step IH d acc k acc' :=
  transitivity (digits_val (10 * Zpos acc + k) (digits d)); [reflexivity|];
  replace (10 * Zpos acc + k)%Z with (Zpos acc') by lia;
  apply IH.

Lemma digits_val_acc (d : Decimal.uint) (acc : positive) :
  digits_val (Zpos acc) (digits d) = Some (Zpos (Pos.of_uint_acc d acc)).
Proof.
  revert acc. induction d as [|d IH|d IH|d IH|d IH|d IH|d IH|d IH|d IH|d IH|d IH];
    intros acc; cbn [Pos.of_uint_acc].
  - reflexivity.
  - horner_step IH d acc 0%Z (Pos.mul 10 acc).
  - horner_step IH d acc 1%Z (Pos.add 1 (Pos.mul 10 acc)).
  - horner_step IH d acc 2%Z (Pos.add 2 (Pos.mul 10 acc)).
  - horner_step IH d acc 3%Z (Pos.add 3 (Pos.mul 10 acc)).
  - horner_step IH d acc 4%Z (Pos.add 4 (Pos.mul 10 acc)).
  - horner_step IH d acc 5%Z (Pos.add 5 (Pos.mul 10 acc)).
  - horner_step IH d acc 6%Z (Pos.add 6 (Pos.mul 10 acc)).
  - horner_step IH d acc 7%Z (Pos.add 7 (Pos.mul 10 acc)).
  - horner_step IH d acc 8%Z (Pos.add 8 (Pos.mul 10 acc)).
  - horner_step IH d acc 9%Z (Pos.add 9 (Pos.mul 10 acc)).
Qed.

Lemma digits_val_zero (d : Decimal.uint) :
  digits_val 0 (digits d) = Some (Z.of_N (Pos.of_uint d)).
Proof.
  induction d as [|d IH|d IH|d IH|d IH|d IH|d IH|d IH|d IH|d IH|d IH];
    [reflexivity|exact IH|..];
    exact (digits_val_acc d _).
Qed.

Definition plain (c : byte) : Prop :=
  mem_byte c whitespace = false /\ c <> COMMA
  /\ Byte.eqb c x2d = false /\ Byte.eqb c x2b = false
  /\ (Byte.to_N c <? 128)%N = true.

(** Digits are neither blank, nor a comma, nor a sign, and they are
    ASCII. *)
Lemma digits_plain (d : Decimal.uint) : Forall plain (digits d).
Proof.
  induction d; constructor; try assumption; repeat split; discriminate.
Qed.

Lemma lstrip_none (chars s : bytes) :
  Forall (fun c => mem_byte c chars = false) s -> lstrip chars s = s.
Proof. intros [|c s' Hc _]; [reflexivity|]. simpl. now rewrite Hc. Qed.

Lemma strip_none (chars s : bytes) :
  Forall (fun c => mem_byte c chars = false) s -> strip chars s = s.
Proof.
  intros H. unfold strip, rstrip. rewrite (lstrip_none chars s) by assumption.
  rewrite lstrip_none by (now apply Forall_rev). apply rev_involutive.
Qed.

Lemma unsigned_int_digits (d : Decimal.uint) :
  d <> Decimal.Nil -> unsigned_int (digits d) = Ok (Z.of_N (Pos.of_uint d)).
Proof.
  intros Hd. unfold unsigned_int. rewrite digits_val_zero.
  destruct d; [congruence|..]; reflexivity.
Qed.

Lemma not_space_of_plain (s : bytes) :
  Forall plain s -> Forall (fun c => mem_byte c whitespace = false) s.
Proof. apply Forall_impl. now intros c [H _]. Qed.

Lemma int_plain (s : bytes) : Forall plain s -> int s = unsigned_int s.
Proof.
  intros H. unfold int. rewrite strip_none by (now apply not_space_of_plain).
  destruct H as [|c s (_ & _ & Hm & Hp & _) _]; [reflexivity|].
  now rewrite Hm, Hp.
Qed.

Lemma int_minus (s : bytes) :
  Forall plain s ->
  int (x2d :: s) =
  match unsigned_int s with Ok n => Ok (- n)%Z | Raise e => Raise e end.
Proof.
  intros H. unfold int. rewrite strip_none; [reflexivity|].
  constructor; [reflexivity|now apply not_space_of_plain].
Qed.

Lemma fmt_d_pos (p : positive) : fmt_d (Zpos p) = digits (Pos.to_uint p).
Proof.
  unfold fmt_d, digits. cbn [Z.to_int NilZero.string_of_int].
  unfold NilZero.string_of_uint.
  pose proof (DecimalPos.Unsigned.to_uint_nonnil p) as Hnil.
  destruct (Pos.to_uint p); [congruence|..]; reflexivity.
Qed.

Lemma fmt_d_neg (p : positive) : fmt_d (Zneg p) = x2d :: digits (Pos.to_uint p).
Proof.
  unfold fmt_d, digits. cbn [Z.to_int NilZero.string_of_int].
  unfold NilZero.string_of_uint.
  pose proof (DecimalPos.Unsigned.to_uint_nonnil p) as Hnil.
  destruct (Pos.to_uint p); [congruence|..]; reflexivity.
Qed.

(** [int] reads a printed integer back. *)
Theorem int_fmt_d (n : Z) : int (fmt_d n) = Ok n.
Proof.
  destruct n as [|p|p]; [reflexivity|..].
  - rewrite fmt_d_pos, int_plain by apply digits_plain.
    rewrite unsigned_int_digits by apply DecimalPos.Unsigned.to_uint_nonnil.
    now rewrite DecimalPos.Unsigned.of_to.
  - rewrite fmt_d_neg, int_minus by apply digits_plain.
    rewrite unsigned_int_digits by apply DecimalPos.Unsigned.to_uint_nonnil.
    now rewrite DecimalPos.Unsigned.of_to.
Qed.

(** A printed integer holds no comma and only ASCII. *)
Lemma fmt_d_plain (n : Z) :
  Forall (fun c => c <> COMMA /\ (Byte.to_N c <? 128)%N = true) (fmt_d n).
Proof.
  assert (H : forall d, Forall (fun c => c <> COMMA
                                    /\ (Byte.to_N c <? 128)%N = true) (digits d)).
  { intros d. eapply Forall_impl; [|apply digits_plain].
    intros c (_ & Hc & _ & _ & Ha). auto. }
  destruct n as [|p|p].
  - repeat constructor; discriminate.
  - rewrite fmt_d_pos. apply H.
  - rewrite fmt_d_neg. constructor; [split; [discriminate|reflexivity]|apply H].
Qed.

Lemma mem_byte_notin (c : byte) (s : bytes) : ~ In c s -> mem_byte c s = false.
Proof.
  intros H. unfold mem_byte. apply not_true_is_false. intros E.
  apply existsb_exists in E as (x & Hin & Hx). apply byte_eqb_eq in Hx as <-.
  contradiction.
Qed.

Lemma fmt_d_no_comma (n : Z) : mem_byte COMMA (fmt_d n) = false.
Proof.
  apply mem_byte_notin. intros Hin.
  pose proof (fmt_d_plain n) as H. rewrite Forall_forall in H.
  now destruct (H _ Hin).
Qed.

(** ** Decoding *)

Lemma utf8_check_go_app (need : nat) (s t : bytes) :
  utf8_check_go need s = true ->
  utf8_check_go need (s ++ t) = utf8_check_go 0 t.
Proof.
  revert need. induction s as [|c s IH]; intros need H.
  - destruct need; [reflexivity|discriminate].
  - cbn [app utf8_check_go] in *. destruct need as [|k].
    + destruct (utf8_lead (Byte.to_N c)); [now apply IH|discriminate].
    + destruct (utf8_is_cont (Byte.to_N c)); [now apply IH|discriminate].
Qed.

Lemma utf8_check_ascii (s : bytes) :
  Forall (fun c => (Byte.to_N c <? 128)%N = true) s -> utf8_check s = true.
Proof.
  unfold utf8_check. induction 1 as [|c s Hc _ IH]; [reflexivity|].
  cbn [utf8_check_go]. unfold utf8_lead. now rewrite Hc.
Qed.

Lemma utf8_check_fmt_d (n : Z) : utf8_check (fmt_d n) = true.
Proof.
  apply utf8_check_ascii. eapply Forall_impl; [|apply fmt_d_plain].
  now intros c [_ H].
Qed.

Lemma utf8_check_quoted (s : bytes) :
  utf8_check s = true -> utf8_check ([QUOTE] ++ s ++ [QUOTE]) = true.
Proof.
  intros H. unfold utf8_check in *.
  rewrite (utf8_check_go_app 0 [QUOTE] (s ++ [QUOTE]) eq_refl).
  now rewrite (utf8_check_go_app 0 s [QUOTE] H).
Qed.

End DecimalFacts.

(* ===================================================================== *)
(** * The command channel: [send]                                         *)
(* ===================================================================== *)

Module SendFacts.
Import Py Hw ESPC3 PyFacts Behaviour Scenario.

(** ** The polling loop terminates *)

Lemma poll_fuel_S (fuel : nat) (timeout stamp : Z) (response : bytes) (w : World) :
  poll_fuel (S fuel) timeout stamp response w =
  let (t, w1) := time_time w in
  if (t - stamp <? timeout)%Z then
    if uart_any w1 then
      let (x, w2) := uart_read 1 w1 in
      let response' := response ++ x in
      if ends_OK response' then Some (response', w2)
      else if ends_ERROR response' then Some (response', w2)
      else poll_fuel fuel timeout stamp response' w2
    else poll_fuel fuel timeout stamp response w1
  else Some (response, w1).
Proof. reflexivity. Qed.

Lemma time_time_clock (w w1 : World) (t : Z) :
  time_time w = (t, w1) -> t = clock w1.
Proof.
  unfold time_time. destruct (script w) as [|[dt arrived] rest];
    intros [= <- <-]; reflexivity.
Qed.

Lemma time_time_bound (timeout stamp : Z) (w w1 : World) (t : Z) :
  time_time w = (t, w1) -> (t - stamp < timeout)%Z ->
  poll_bound timeout stamp w1 < poll_bound timeout stamp w.
Proof.
  unfold time_time, poll_bound.
  destruct (script w) as [|[dt arrived] rest]; intros [= <- <-] Hlt; simpl; lia.
Qed.

Lemma uart_read_bound (timeout stamp : Z) (n : nat) (w : World) :
  poll_bound timeout stamp (snd (uart_read n w)) = poll_bound timeout stamp w.
Proof. reflexivity. Qed.

Lemma poll_fuel_enough (fuel : nat) (timeout stamp : Z) (response : bytes) (w : World) :
  poll_bound timeout stamp w < fuel ->
  exists r, poll_fuel fuel timeout stamp response w = Some r.
Proof.
  revert response w. induction fuel as [|fuel IH]; intros response w Hb; [lia|].
  rewrite poll_fuel_S. destruct (time_time w) as [t w1] eqn:Et.
  destruct (Z.ltb_spec (t - stamp) timeout) as [Hlt|Hge]; [|eauto].
  pose proof (time_time_bound _ _ _ _ _ Et Hlt) as Hstep.
  destruct (uart_any w1).
  - destruct (uart_read 1 w1) as [x w2] eqn:Er. cbv zeta.
    destruct (ends_OK _); [eauto|]. destruct (ends_ERROR _); [eauto|].
    apply IH. inversion Er; subst. unfold poll_bound in *. simpl. lia.
  - apply IH. lia.
Qed.

Lemma poll_fuel_mono (fuel fuel' : nat) (timeout stamp : Z) (response : bytes)
      (w : World) (r : bytes * World) :
  poll_fuel fuel timeout stamp response w = Some r -> fuel <= fuel' ->
  poll_fuel fuel' timeout stamp response w = Some r.
Proof.
  revert fuel' response w. induction fuel as [|fuel IH]; intros fuel' response w H Hle;
    [discriminate|].
  destruct fuel' as [|fuel']; [lia|]. rewrite poll_fuel_S in *.
  destruct (time_time w) as [t w1].
  destruct (t - stamp <? timeout)%Z; [|assumption].
  destruct (uart_any w1).
  - destruct (uart_read 1 w1) as [x w2]. cbv zeta in *.
    destruct (ends_OK _); [assumption|]. destruct (ends_ERROR _); [assumption|].
    apply IH; [assumption|lia].
  - apply IH; [assumption|lia].
Qed.

(** [poll], as run by [send], is the result of the loop. *)
Lemma poll_is_poll_fuel (timeout stamp : Z) (response : bytes) (w : World) :
  poll_fuel (S (poll_bound timeout stamp w)) timeout stamp response w
  = Some (poll timeout stamp response w).
Proof.
  unfold poll.
  destruct (poll_fuel_enough (S (poll_bound timeout stamp w)) timeout stamp response w)
    as [r ->]; [lia|reflexivity].
Qed.

(** [poll] satisfies the equation of the [while] loop. *)
Lemma poll_unfold (timeout stamp : Z) (response : bytes) (w : World) :
  poll timeout stamp response w =
  let (t, w1) := time_time w in
  if (t - stamp <? timeout)%Z then
    if uart_any w1 then
      let (x, w2) := uart_read 1 w1 in
      let response' := response ++ x in
      if ends_OK response' then (response', w2)
      else if ends_ERROR response' then (response', w2)
      else poll timeout stamp response' w2
    else poll timeout stamp response w1
  else (response, w1).
Proof.
  pose proof (poll_is_poll_fuel timeout stamp response w) as H.
  rewrite poll_fuel_S in H. destruct (time_time w) as [t w1] eqn:Et.
  destruct (Z.ltb_spec (t - stamp) timeout) as [Hlt|Hge]; [|congruence].
  pose proof (time_time_bound _ _ _ _ _ Et Hlt) as Hstep.
  destruct (uart_any w1).
  - cbv zeta in *. destruct (uart_read 1 w1) as [x w2] eqn:Er.
    assert (Hb : poll_bound timeout stamp w2 = poll_bound timeout stamp w1)
      by (inversion Er; reflexivity).
    destruct (ends_OK _); [congruence|]. destruct (ends_ERROR _); [congruence|].
    pose proof (poll_is_poll_fuel timeout stamp (response ++ x) w2) as H2.
    apply poll_fuel_mono with (fuel' := poll_bound timeout stamp w) in H2; [|lia].
    congruence.
  - pose proof (poll_is_poll_fuel timeout stamp response w1) as H2.
    apply poll_fuel_mono with (fuel' := poll_bound timeout stamp w) in H2; [|lia].
    congruence.
Qed.

(** ** What the loop leaves behind *)

Lemma time_time_pending (w w1 : World) (t : Z) :
  time_time w = (t, w1) ->
  pending w1 = pending w /\ txlog w1 = txlog w /\ console w1 = console w.
Proof.
  unfold time_time, pending.
  destruct (script w) as [|[dt arrived] rest] eqn:E; intros [= <- <-]; simpl.
  - auto.
  - rewrite <- app_assoc. auto.
Qed.

Lemma uart_read_pending (n : nat) (w w2 : World) (x : bytes) :
  uart_read n w = (x, w2) ->
  x ++ pending w2 = pending w /\ txlog w2 = txlog w /\ console w2 = console w
  /\ length x <= n.
Proof.
  unfold uart_read, pending. intros [= <- <-]; simpl.
  rewrite app_assoc, firstn_skipn. repeat split. apply firstn_le_length.
Qed.

Lemma ends_OK_nil : ends_OK [] = false.
Proof. reflexivity. Qed.

Lemma firstn_app_le (k : nat) (r x : bytes) :
  k <= length r -> firstn k (r ++ x) = firstn k r.
Proof.
  intros H. rewrite firstn_app.
  replace (k - length r) with 0 by lia. apply app_nil_r.
Qed.

(** The loop only appends to the response, takes what it appends from the
    front of the pending bytes, writes and prints nothing, and stops at the
    first buffer that ends with [OK\r\n]: no shorter prefix of the result
    does. *)
Lemma poll_fuel_inv (fuel : nat) (timeout stamp : Z) (response : bytes) (w : World)
      (r : bytes) (w' : World) :
  poll_fuel fuel timeout stamp response w = Some (r, w') ->
  (forall k, k <= length response -> ends_OK (firstn k response) = false) ->
  response ++ pending w = r ++ pending w'
  /\ txlog w' = txlog w /\ console w' = console w
  /\ (forall k, k < length r -> ends_OK (firstn k r) = false).
Proof.
  revert response w. induction fuel as [|fuel IH]; intros response w H Hclean;
    [discriminate|].
  rewrite poll_fuel_S in H. destruct (time_time w) as [t w1] eqn:Et.
  apply time_time_pending in Et as (Ep & Etx & Eco).
  rewrite <- Ep, <- Etx, <- Eco. clear Ep Etx Eco.
  assert (Hstop : forall x w2, uart_read 1 w1 = (x, w2) ->
            (response ++ x) ++ pending w2 = response ++ pending w1
            /\ txlog w2 = txlog w1 /\ console w2 = console w1
            /\ (forall k, k < length (response ++ x) ->
                  ends_OK (firstn k (response ++ x)) = false)).
  { intros x w2 Er. apply uart_read_pending in Er as (Ep & Etx & Eco & Hx).
    rewrite <- app_assoc, Ep. repeat split; auto.
    intros k Hk. rewrite length_app in Hk.
    rewrite firstn_app_le by lia. apply Hclean. lia. }
  destruct (t - stamp <? timeout)%Z.
  - destruct (uart_any w1).
    + destruct (uart_read 1 w1) as [x w2] eqn:Er. cbv zeta in H.
      destruct (Hstop x w2 eq_refl) as (Ep & Etx & Eco & Hpre).
      destruct (ends_OK (response ++ x)) eqn:Eok;
        [injection H as <- <-; rewrite Ep; auto|].
      destruct (ends_ERROR (response ++ x));
        [injection H as <- <-; rewrite Ep; auto|].
      apply IH in H.
      * rewrite <- Ep, <- Etx, <- Eco. exact H.
      * intros k Hk. apply Nat.lt_eq_cases in Hk as [Hk| ->].
        -- now apply Hpre.
        -- now rewrite firstn_all.
    + now apply IH in H.
  - injection H as <- <-. repeat split; auto.
    intros k Hk. apply Hclean. lia.
Qed.

Lemma poll_inv (timeout stamp : Z) (w : World) (r : bytes) (w' : World) :
  poll timeout stamp [] w = (r, w') ->
  pending w = r ++ pending w'
  /\ txlog w' = txlog w /\ console w' = console w
  /\ (forall k, k < length r -> ends_OK (firstn k r) = false).
Proof.
  intros H. pose proof (poll_is_poll_fuel timeout stamp [] w) as Hf.
  rewrite H in Hf. apply poll_fuel_inv in Hf; [exact Hf|].
  intros k _. now rewrite firstn_nil.
Qed.

(** ** One attempt *)

Lemma ends_OK_spec (r : bytes) :
  ends_OK r = true <-> exists payload, r = payload ++ OK_CRLF.
Proof. exact (ends_with_spec OK_CRLF r). Qed.

Lemma ends_OK_strip (r : bytes) :
  ends_OK r = true -> r = slice_drop_last 4 r ++ OK_CRLF.
Proof.
  intros H. apply ends_OK_spec in H as [payload ->].
  pose proof (slice_drop_last_app payload OK_CRLF) as E.
  change (length OK_CRLF) with 4 in E. now rewrite E.
Qed.

Lemma send_attempt_spec (self : self_t) (at_ : str) (timeout : Z) (w : World)
      (response : bytes) (w1 : World) :
  send_attempt self at_ timeout w = (response, w1) ->
  pending w = response ++ pending w1
  /\ txlog w1 = txlog w ++ [at_; CRLF]
  /\ clean response.
Proof.
  unfold send_attempt.
  set (wa := if _debug self then print _ w else w).
  assert (Ha : pending wa = pending w /\ txlog wa = txlog w)
    by (subst wa; destruct (_debug self); auto).
  destruct Ha as [Hap Hat]. clearbody wa.
  destruct (time_time _) as [stamp w2] eqn:Et.
  destruct (poll timeout stamp [] w2) as [r w3] eqn:Ep.
  intros [= <- <-].
  apply time_time_pending in Et as (Ep2 & Etx2 & _).
  apply poll_inv in Ep as (Ep3 & Etx3 & _ & Hclean).
  assert (Hb : forall wb, pending (if _debug self then print [PStr (b "<--- rx "); PBytes r] wb else wb) = pending wb
                     /\ txlog (if _debug self then print [PStr (b "<--- rx "); PBytes r] wb else wb) = txlog wb)
    by (intros wb; destruct (_debug self); auto).
  destruct (Hb w3) as [-> ->].
  rewrite <- Ep3, Ep2, Etx3, Etx2. simpl.
  unfold pending in *. simpl. rewrite Hat, <- app_assoc. auto.
Qed.

(** A buffer that ends with the sentinel for the first time holds it
    nowhere else. *)
Lemma clean_payload (payload : bytes) :
  clean (payload ++ OK_CRLF) -> contains OK_CRLF payload = false.
Proof.
  intros Hclean. destruct (contains OK_CRLF payload) eqn:E; [|reflexivity].
  apply contains_spec in E as (pre & post & ->).
  specialize (Hclean (length (pre ++ OK_CRLF))).
  rewrite <- !app_assoc, (app_assoc pre OK_CRLF), firstn_app_le, firstn_all in Hclean
    by reflexivity.
  assert (H : ends_OK (pre ++ OK_CRLF) = true) by (apply ends_OK_spec; eauto).
  rewrite Hclean in H; [discriminate|].
  rewrite !length_app. simpl. lia.
Qed.

(** ** All attempts *)

Section Attempts.
Variables (self : self_t) (at_ : str) (timeout : Z).

Lemma send_loop_S (n : nat) (w : World) :
  send_loop self (S n) at_ timeout w =
  let (response, w1) := send_attempt self at_ timeout w in
  if ends_OK response
  then (Ok (slice_drop_last 4 response), w1)
  else send_loop self n at_ timeout (time_sleep 1 w1).
Proof. reflexivity. Qed.

Lemma send_buffers_S (n : nat) (w : World) :
  send_buffers self (S n) at_ timeout w =
  let (response, w1) := send_attempt self at_ timeout w in
  response ::
    (if ends_OK response then []
     else send_buffers self n at_ timeout (time_sleep 1 w1)).
Proof. reflexivity. Qed.

Lemma send_buffers_clean (n : nat) (w : World) :
  Forall clean (send_buffers self n at_ timeout w).
Proof.
  revert w. induction n as [|n IH]; intros w; [constructor|].
  rewrite send_buffers_S.
  destruct (send_attempt self at_ timeout w) as [response w1] eqn:Ea.
  apply send_attempt_spec in Ea as (_ & _ & Hclean).
  constructor; [assumption|]. destruct (ends_OK response); [constructor|apply IH].
Qed.

(** Every buffer is a run of the bytes that were pending at the start. *)
Lemma send_buffers_pending (n : nat) (w : World) :
  Forall (fun r => exists pre post, pending w = pre ++ r ++ post)
         (send_buffers self n at_ timeout w).
Proof.
  revert w. induction n as [|n IH]; intros w; [constructor|].
  rewrite send_buffers_S.
  destruct (send_attempt self at_ timeout w) as [response w1] eqn:Ea.
  apply send_attempt_spec in Ea as (Hp & _ & _).
  constructor; [exists [], (pending w1); exact Hp|].
  destruct (ends_OK response); [constructor|].
  specialize (IH (time_sleep 1 w1)).
  change (pending (time_sleep 1 w1)) with (pending w1) in IH.
  eapply Forall_impl; [|exact IH].
  intros r (pre & post & E). exists (response ++ pre), post.
  now rewrite Hp, E, <- app_assoc.
Qed.

Lemma send_loop_ok (n : nat) (w : World) (bufs : list bytes) (response : bytes) :
  send_buffers self n at_ timeout w = bufs ++ [response] ->
  ends_OK response = true ->
  exists w', send_loop self n at_ timeout w = (Ok (slice_drop_last 4 response), w').
Proof.
  revert w bufs. induction n as [|n IH]; intros w bufs Hb Hok.
  - destruct bufs; discriminate.
  - rewrite send_buffers_S in Hb. rewrite send_loop_S.
    destruct (send_attempt self at_ timeout w) as [r1 w1].
    destruct (ends_OK r1) eqn:E1.
    + destruct bufs as [|r bufs]; [|destruct bufs; discriminate].
      injection Hb as ->. eauto.
    + destruct bufs as [|r bufs]; injection Hb as -> Hb.
      * congruence.
      * eapply IH; eassumption.
Qed.

Lemma send_loop_raise (n : nat) (w : World) :
  Forall (fun r => ends_OK r = false) (send_buffers self n at_ timeout w) ->
  exists w',
    send_loop self n at_ timeout w =
      (Raise (Exception (b "No OK response to " ++ at_)), w')
    /\ txlog w' = txlog w ++ concat (repeat [at_; CRLF] n)
    /\ length (send_buffers self n at_ timeout w) = n.
Proof.
  revert w. induction n as [|n IH]; intros w Hall.
  - exists w. simpl. now rewrite app_nil_r.
  - rewrite send_buffers_S in *. rewrite send_loop_S.
    destruct (send_attempt self at_ timeout w) as [r1 w1] eqn:Ea.
    apply send_attempt_spec in Ea as (_ & Htx & _).
    inversion Hall as [|? ? H1 Hrest]; subst. rewrite H1 in *.
    destruct (IH _ Hrest) as (w' & -> & Htx' & Hlen).
    exists w'. repeat split.
    + rewrite Htx'. change (txlog (time_sleep 1 w1)) with (txlog w1).
      rewrite Htx. simpl. now rewrite <- app_assoc.
    + simpl. now rewrite Hlen.
Qed.

(** The other way round: what [send] returned tells how the attempts
    went. *)
Lemma send_loop_inv (n : nat) (w w' : World) (res : result bytes) :
  send_loop self n at_ timeout w = (res, w') ->
  match res with
  | Ok payload =>
      exists bufs,
        send_buffers self n at_ timeout w = bufs ++ [payload ++ OK_CRLF]
        /\ Forall (fun r => ends_OK r = false) bufs
  | Raise e =>
      e = Exception (b "No OK response to " ++ at_)
      /\ Forall (fun r => ends_OK r = false) (send_buffers self n at_ timeout w)
  end.
Proof.
  revert w. induction n as [|n IH]; intros w H.
  - injection H as <- <-. split; [reflexivity|constructor].
  - rewrite send_loop_S in H. rewrite send_buffers_S.
    destruct (send_attempt self at_ timeout w) as [r1 w1].
    destruct (ends_OK r1) eqn:E1.
    + injection H as <- <-. exists []. rewrite <- ends_OK_strip by assumption.
      split; [reflexivity|constructor].
    + apply IH in H. destruct res as [payload|e].
      * destruct H as (bufs & -> & Hall). exists (r1 :: bufs). split; [reflexivity|].
        now constructor.
      * destruct H as [-> Hall]. split; [reflexivity|]. now constructor.
Qed.

End Attempts.

End SendFacts.

(* ===================================================================== *)
(** * The command channel: what [send] returns                            *)
(* ===================================================================== *)

Module CommandChannel.
Import Py Hw ESPC3 PyFacts SendFacts Behaviour Scenario.

(** C1. Whenever the response buffer of an attempt comes to end with the
    four bytes [OK\r\n], [send] returns that buffer without its last four
    bytes, and the payload it returns holds [OK\r\n] nowhere. *)
Theorem send_returns_stripped_payload
        (self : self_t) (at_ : str) (timeout retries : Z) (w : World)
        (bufs : list bytes) (response : bytes) :
  send_buffers self (Z.to_nat retries) at_ timeout w = bufs ++ [response] ->
  ends_OK response = true ->
  exists payload w',
    send self at_ timeout retries w = (Ok payload, w')
    /\ response = payload ++ OK_CRLF
    /\ payload = slice_drop_last 4 response
    /\ length payload + 4 = length response
    /\ contains OK_CRLF payload = false.
Proof.
  intros Hb Hok.
  destruct (send_loop_ok self at_ timeout _ w bufs response Hb Hok) as [w' Hs].
  exists (slice_drop_last 4 response), w'.
  pose proof (ends_OK_strip response Hok) as Hr.
  split; [exact Hs|]. split; [exact Hr|]. split; [reflexivity|]. split.
  - rewrite Hr at 2. rewrite length_app. reflexivity.
  - apply clean_payload. rewrite <- Hr.
    pose proof (send_buffers_clean self at_ timeout (Z.to_nat retries) w) as Hc.
    rewrite Hb in Hc. apply Forall_app in Hc as [_ Hc]. now inversion Hc.
Qed.

Lemma send_returns_stripped_payload_witness :
  exists payload w',
    send (mkSelf false) (b "AT") 1 3 busy_then_ok = (Ok payload, w')
    /\ b "hello" ++ CRLF ++ OK_CRLF = payload ++ OK_CRLF
    /\ payload = slice_drop_last 4 (b "hello" ++ CRLF ++ OK_CRLF)
    /\ length payload + 4 = length (b "hello" ++ CRLF ++ OK_CRLF)
    /\ contains OK_CRLF payload = false.
Proof.
  apply (send_returns_stripped_payload (mkSelf false) (b "AT") 1 3 busy_then_ok
           [ERROR_CRLF] (b "hello" ++ CRLF ++ OK_CRLF)); reflexivity.
Defined.

(** A successful [send] is one whose last attempt ended with the
    sentinel. *)
Lemma send_ok_inv (self : self_t) (at_ : str) (timeout retries : Z)
      (w w' : World) (payload : bytes) :
  send self at_ timeout retries w = (Ok payload, w') ->
  (exists bufs,
     send_buffers self (Z.to_nat retries) at_ timeout w = bufs ++ [payload ++ OK_CRLF])
  /\ contains OK_CRLF payload = false.
Proof.
  intros H. apply send_loop_inv in H as (bufs & Hb & _).
  split; [eauto|]. apply clean_payload.
  pose proof (send_buffers_clean self at_ timeout (Z.to_nat retries) w) as Hc.
  rewrite Hb in Hc. apply Forall_app in Hc as [_ Hc]. now inversion Hc.
Qed.

(** C2. When no attempt ends with the success sentinel (each one ends with
    [ERROR\r\n] or runs into the timeout), [send] raises its
    no-response exception and returns nothing; by then it has made all its
    attempts, each of which wrote the command and then CR LF, and no buffer
    it looked at, at any moment of any attempt, ended with [OK\r\n]. *)
Theorem send_fails_without_ok
        (self : self_t) (at_ : str) (timeout retries : Z) (w : World) :
  Forall (fun r => ends_OK r = false)
         (send_buffers self (Z.to_nat retries) at_ timeout w) ->
  exists w',
    send self at_ timeout retries w =
      (Raise (Exception (b "No OK response to " ++ at_)), w')
    /\ length (send_buffers self (Z.to_nat retries) at_ timeout w) = Z.to_nat retries
    /\ txlog w' = txlog w ++ concat (repeat [at_; CRLF] (Z.to_nat retries))
    /\ Forall (fun r => forall k, ends_OK (firstn k r) = false)
              (send_buffers self (Z.to_nat retries) at_ timeout w).
Proof.
  intros Hall.
  destruct (send_loop_raise self at_ timeout _ w Hall) as (w' & Hs & Htx & Hlen).
  exists w'. repeat split; try assumption.
  pose proof (send_buffers_clean self at_ timeout (Z.to_nat retries) w) as Hc.
  rewrite Forall_forall in *. intros r Hin k.
  destruct (Nat.lt_ge_cases k (length r)) as [Hlt|Hge].
  - now apply Hc.
  - rewrite firstn_all2 by assumption. now apply Hall.
Qed.

Lemma send_fails_without_ok_witness :
  exists w',
    send (mkSelf false) (b "AT") 1 3 error_then_silent =
      (Raise (Exception (b "No OK response to AT")), w')
    /\ length (send_buffers (mkSelf false) 3 (b "AT") 1 error_then_silent) = 3
    /\ txlog w' = [b "AT"; CRLF; b "AT"; CRLF; b "AT"; CRLF]
    /\ Forall (fun r => forall k, ends_OK (firstn k r) = false)
              (send_buffers (mkSelf false) 3 (b "AT") 1 error_then_silent).
Proof.
  apply (send_fails_without_ok (mkSelf false) (b "AT") 1 3 error_then_silent).
  vm_compute. repeat constructor.
Defined.

(** X23. In particular a module that never sends [OK\r\n] gets every
    command refused, whatever it sends instead and whenever it sends it,
    after the command has been written once per retry. *)
Theorem send_fails_if_module_never_says_ok
        (self : self_t) (at_ : str) (timeout retries : Z) (w : World) :
  contains OK_CRLF (pending w) = false ->
  exists w',
    send self at_ timeout retries w =
      (Raise (Exception (b "No OK response to " ++ at_)), w')
    /\ txlog w' = txlog w ++ concat (repeat [at_; CRLF] (Z.to_nat retries)).
Proof.
  intros Hno.
  destruct (send_loop_raise self at_ timeout (Z.to_nat retries) w) as (w' & Hs & Htx & _).
  - pose proof (send_buffers_pending self at_ timeout (Z.to_nat retries) w) as Hp.
    eapply Forall_impl; [|exact Hp]. intros r (pre & post & E).
    destruct (ends_OK r) eqn:Eok; [|reflexivity].
    apply ends_OK_spec in Eok as [payload ->].
    assert (H : contains OK_CRLF (pending w) = true).
    { apply contains_spec. exists (pre ++ payload), post.
      now rewrite E, <- !app_assoc. }
    congruence.
  - eauto.
Qed.

Lemma send_fails_if_module_never_says_ok_witness :
  exists w',
    send (mkSelf false) (b "AT") 1 3 error_then_silent =
      (Raise (Exception (b "No OK response to " ++ b "AT")), w')
    /\ txlog w' =
         txlog error_then_silent ++ concat (repeat [b "AT"; CRLF] (Z.to_nat 3)).
Proof.
  apply (send_fails_if_module_never_says_ok (mkSelf false) (b "AT") 1 3
           error_then_silent).
  vm_compute. reflexivity.
Defined.

End CommandChannel.

(* ===================================================================== *)
(** * The reply parsers                                                   *)
(* ===================================================================== *)

Module ParserFacts.
Import Py Hw ESPC3 PyFacts Behaviour Scenario.

(** ** Splitting at a single byte *)

Lemma startswith_single (c d : byte) (s : bytes) :
  startswith [c] (d :: s) = Byte.eqb c d.
Proof. simpl. apply andb_true_r. Qed.

Lemma split_go_no_sep (c : byte) (cur s : bytes) :
  mem_byte c s = false -> split_go [c] cur 0 s = [cur ++ s].
Proof.
  revert cur. induction s as [|d s IH]; intros cur H.
  - now rewrite app_nil_r.
  - simpl in H. apply orb_false_iff in H as [Hd Hs].
    cbn [split_go]. rewrite startswith_single, Hd, IH by assumption.
    now rewrite <- app_assoc.
Qed.

Lemma split_go_sep (c : byte) (cur f rest : bytes) :
  mem_byte c f = false ->
  split_go [c] cur 0 (f ++ c :: rest) = (cur ++ f) :: split_go [c] [] 0 rest.
Proof.
  revert cur. induction f as [|d f IH]; intros cur H.
  - cbn [app split_go]. rewrite startswith_single, byte_eqb_refl.
    now rewrite app_nil_r.
  - simpl in H. apply orb_false_iff in H as [Hd Hf].
    cbn [app split_go]. rewrite startswith_single, Hd, IH by assumption.
    now rewrite <- app_assoc.
Qed.

(** Fields that hold no separator come back from [split] as they went
    into [join]. *)
Lemma split_join (c : byte) (fields : list bytes) :
  fields <> [] ->
  Forall (fun f => mem_byte c f = false) fields ->
  split [c] (join [c] fields) = fields.
Proof.
  unfold split. induction fields as [|f fields IH]; intros Hne Hall; [easy|].
  inversion Hall as [|? ? Hf Hrest]; subst.
  destruct fields as [|g fields].
  - simpl. now apply split_go_no_sep.
  - change (join [c] (f :: g :: fields)) with (f ++ c :: join [c] (g :: fields)).
    rewrite split_go_sep by assumption. cbn [app]. f_equal.
    apply IH; [discriminate|assumption].
Qed.

(** ** Stripping the quotes of a quoted string *)

Lemma lstrip_keep (chars s : bytes) (c : byte) :
  mem_byte c chars = false -> lstrip chars (c :: s) = c :: s.
Proof. intros H. simpl. now rewrite H. Qed.

Lemma lstrip_drop (chars s : bytes) (c : byte) :
  mem_byte c chars = true -> lstrip chars (c :: s) = lstrip chars s.
Proof. intros H. simpl. now rewrite H. Qed.

Lemma mem_quote (c : byte) : mem_byte c [QUOTE] = Byte.eqb c QUOTE.
Proof. simpl. apply orb_false_r. Qed.

Lemma lstrip_quote_head (s x : bytes) :
  ~ In QUOTE s -> s <> [] -> lstrip [QUOTE] (s ++ x) = s ++ x.
Proof.
  intros Hin Hne. destruct s as [|c s]; [easy|].
  apply lstrip_keep. rewrite mem_quote.
  destruct (Byte.eqb c QUOTE) eqn:E; [|reflexivity].
  apply byte_eqb_eq in E as ->. exfalso. apply Hin. now left.
Qed.

(** A string without quote characters comes back when the quotes put
    around it are stripped. *)
Lemma strip_quoted (s : bytes) :
  ~ In QUOTE s -> strip [QUOTE] ([QUOTE] ++ s ++ [QUOTE]) = s.
Proof.
  intros Hin. unfold strip, rstrip. cbn [app].
  rewrite lstrip_drop by (rewrite mem_quote; apply byte_eqb_refl).
  destruct s as [|c t] eqn:Es; [reflexivity|]. rewrite <- Es in *.
  assert (Hne : s <> []) by (rewrite Es; discriminate). clear Es.
  rewrite lstrip_quote_head by assumption.
  rewrite rev_app_distr. cbn [rev app].
  rewrite lstrip_drop by (rewrite mem_quote; apply byte_eqb_refl).
  rewrite <- (app_nil_r (rev s)), lstrip_quote_head, app_nil_r.
  - apply rev_involutive.
  - intros H. apply Hin. now apply in_rev.
  - intros H. apply Hne. apply (f_equal (@rev _)) in H.
    now rewrite rev_involutive in H.
Qed.

(** ** Scanning the lines for the first one with a prefix *)

Lemma parse_cwjap_lines_first (pre post : list bytes) (line : bytes) :
  Forall (fun l => startswith (b "+CWJAP:") l = false) pre ->
  startswith (b "+CWJAP:") line = true ->
  parse_cwjap_lines (pre ++ line :: post) =
  (info <~ parse_cwjap_line line ;; Ok (Some info)).
Proof.
  intros Hpre Hline. induction Hpre as [|l pre Hl _ IH]; cbn [app parse_cwjap_lines].
  - now rewrite Hline.
  - now rewrite Hl.
Qed.

Lemma parse_cwjap_lines_none (lines : list bytes) :
  Forall (fun l => startswith (b "+CWJAP:") l = false) lines ->
  parse_cwjap_lines lines = Ok None.
Proof.
  intros H. induction H as [|l lines Hl _ IH]; cbn [parse_cwjap_lines];
    [reflexivity|now rewrite Hl].
Qed.

Lemma status_lines_first (pre post : list bytes) (line : bytes) :
  Forall (fun l => startswith (b "STATUS:") l = false) pre ->
  startswith (b "STATUS:") line = true ->
  status_lines (pre ++ line :: post) =
  (n <~ int (slice 7 8 line) ;; Ok (Some n)).
Proof.
  intros Hpre Hline. induction Hpre as [|l pre Hl _ IH]; cbn [app status_lines].
  - now rewrite Hline.
  - now rewrite Hl.
Qed.

Lemma status_lines_none (lines : list bytes) :
  Forall (fun l => startswith (b "STATUS:") l = false) lines ->
  status_lines lines = Ok None.
Proof.
  intros H. induction H as [|l lines Hl _ IH]; cbn [status_lines];
    [reflexivity|now rewrite Hl].
Qed.


Lemma one_digit (n : Z) (rest : bytes) :
  (0 <= n <= 9)%Z ->
  int (slice 7 8 (b "STATUS:" ++ fmt_d n ++ rest)) = Ok n.
Proof.
  intros H. rewrite <- (Z2Nat.id n) by lia.
  assert (Hk : Z.to_nat n < 10) by lia.
  generalize dependent (Z.to_nat n). clear H. intros k Hk.
  cases_upto 10 k; try lia; reflexivity.
Qed.

(** ** The join-status line *)

Lemma parse_cwjap_first_line
      (reply : bytes) (pre post : list bytes)
      (f0 f1 f2 f3 f4 f5 f6 f7 f8 : bytes) (n2 n3 n4 n5 n6 n7 n8 : Z) :
  split CRLF reply =
    pre ++ (b "+CWJAP:" ++ join [COMMA] [f0; f1; f2; f3; f4; f5; f6; f7; f8]) :: post ->
  Forall (fun l => startswith (b "+CWJAP:") l = false) pre ->
  Forall (fun f => mem_byte COMMA f = false) [f0; f1; f2; f3; f4; f5; f6; f7; f8] ->
  utf8_check f0 = true -> utf8_check f1 = true ->
  int f2 = Ok n2 -> int f3 = Ok n3 -> int f4 = Ok n4 -> int f5 = Ok n5 ->
  int f6 = Ok n6 -> int f7 = Ok n7 -> int f8 = Ok n8 ->
  parse_cwjap_response reply =
    Ok (Some {| ssid := strip [QUOTE] f0; bssid := strip [QUOTE] f1;
                channel := n2; rssi := n3; pci_en := n4;
                reconn_interval := n5; listen_interval := n6;
                scan_mode := n7; pmf := n8 |}).
Proof.
  intros Hsplit Hpre Hcomma U0 U1 I2 I3 I4 I5 I6 I7 I8.
  unfold parse_cwjap_response. rewrite Hsplit.
  rewrite parse_cwjap_lines_first;
    [|assumption|apply (startswith_app (b "+CWJAP:"))].
  unfold parse_cwjap_line.
  change (slice_from 7 (b "+CWJAP:" ++ ?x)) with x.
  rewrite split_join by (assumption || discriminate).
  cbn [list_item nth_error rbind]. unfold str_utf8.
  rewrite U0, U1. cbn [rbind].
  now rewrite I2, I3, I4, I5, I6, I7, I8.
Qed.

End ParserFacts.

Module Parsers.
Import Py Hw ESPC3 PyFacts DecimalFacts ParserFacts Behaviour Scenario.

(** C4. When the first line of the reply that starts with [+CWJAP:]
    carries nine comma-separated fields, the first two of them text and
    the other seven integers, the parser returns the record whose [ssid]
    and [bssid] are the first two fields with the quote characters
    around them stripped and whose seven integer fields are the values
    of the other fields, in order.  When no line starts with [+CWJAP:] it
    returns [None] and raises nothing. *)
Theorem parse_cwjap_response_spec :
  (forall (reply : bytes) (pre post : list bytes)
          (f0 f1 f2 f3 f4 f5 f6 f7 f8 : bytes) (n2 n3 n4 n5 n6 n7 n8 : Z),
      split CRLF reply =
        pre ++ (b "+CWJAP:" ++ join [COMMA] [f0; f1; f2; f3; f4; f5; f6; f7; f8]) :: post ->
      Forall (fun l => startswith (b "+CWJAP:") l = false) pre ->
      Forall (fun f => mem_byte COMMA f = false) [f0; f1; f2; f3; f4; f5; f6; f7; f8] ->
      utf8_check f0 = true -> utf8_check f1 = true ->
      int f2 = Ok n2 -> int f3 = Ok n3 -> int f4 = Ok n4 -> int f5 = Ok n5 ->
      int f6 = Ok n6 -> int f7 = Ok n7 -> int f8 = Ok n8 ->
      parse_cwjap_response reply =
        Ok (Some {| ssid := strip [QUOTE] f0; bssid := strip [QUOTE] f1;
                    channel := n2; rssi := n3; pci_en := n4;
                    reconn_interval := n5; listen_interval := n6;
                    scan_mode := n7; pmf := n8 |}))
  /\ (forall reply : bytes,
        Forall (fun l => startswith (b "+CWJAP:") l = false) (split CRLF reply) ->
        parse_cwjap_response reply = Ok None).
Proof.
  split.
  - exact parse_cwjap_first_line.
  - intros reply Hnone. unfold parse_cwjap_response.
    now apply parse_cwjap_lines_none.
Qed.

Lemma parse_cwjap_response_spec_witness :
  parse_cwjap_response home_reply =
    Ok (Some {| ssid := b "home"; bssid := b "aa:bb:cc:dd:ee:ff";
                channel := 6; rssi := -40; pci_en := 1;
                reconn_interval := 1; listen_interval := 3;
                scan_mode := 0; pmf := 1 |})
  /\ parse_cwjap_response (b "No AP" ++ CRLF) = Ok None.
Proof.
  split.
  - apply (proj1 parse_cwjap_response_spec home_reply [] [[]; []]
             ([QUOTE] ++ b "home" ++ [QUOTE])
             ([QUOTE] ++ b "aa:bb:cc:dd:ee:ff" ++ [QUOTE])
             (b "6") (b "-40") (b "1") (b "1") (b "3") (b "0") (b "1"));
      try reflexivity; repeat constructor.
  - apply (proj2 parse_cwjap_response_spec). repeat constructor.
Defined.

(** What the module prints is what the parser reads: from a reply whose
    first [+CWJAP:] line was made of an ssid, a bssid and seven integers,
    the parser gets these nine values back. *)
Theorem parse_cwjap_response_reads_line
        (reply : bytes) (pre post : list bytes) (ssid_ bssid_ : str)
        (n2 n3 n4 n5 n6 n7 n8 : Z) :
  split CRLF reply =
    pre ++ cwjap_line ssid_ bssid_ [n2; n3; n4; n5; n6; n7; n8] :: post ->
  Forall (fun l => startswith (b "+CWJAP:") l = false) pre ->
  utf8_check ssid_ = true -> ~ In QUOTE ssid_ -> ~ In COMMA ssid_ ->
  utf8_check bssid_ = true -> ~ In QUOTE bssid_ -> ~ In COMMA bssid_ ->
  parse_cwjap_response reply =
    Ok (Some {| ssid := ssid_; bssid := bssid_;
                channel := n2; rssi := n3; pci_en := n4;
                reconn_interval := n5; listen_interval := n6;
                scan_mode := n7; pmf := n8 |}).
Proof.
  intros Hsplit Hpre U0 Q0 C0 U1 Q1 C1.
  assert (Hq : forall s, ~ In COMMA s -> mem_byte COMMA (quoted s) = false).
  { intros s Hs. apply mem_byte_notin. unfold quoted. intros Hin.
    apply in_app_or in Hin as [[E|[]]|Hin]; [discriminate|].
    apply in_app_or in Hin as [Hin|[E|[]]]; [contradiction|discriminate]. }
  pose proof (parse_cwjap_first_line reply pre post (quoted ssid_) (quoted bssid_)
                (fmt_d n2) (fmt_d n3) (fmt_d n4) (fmt_d n5) (fmt_d n6) (fmt_d n7)
                (fmt_d n8) n2 n3 n4 n5 n6 n7 n8) as H.
  change (strip [QUOTE] (quoted ssid_))
    with (strip [QUOTE] ([QUOTE] ++ ssid_ ++ [QUOTE])) in H.
  change (strip [QUOTE] (quoted bssid_))
    with (strip [QUOTE] ([QUOTE] ++ bssid_ ++ [QUOTE])) in H.
  rewrite (strip_quoted ssid_ Q0), (strip_quoted bssid_ Q1) in H.
  apply H; try apply int_fmt_d; try (now apply utf8_check_quoted); try assumption.
  repeat constructor; auto using fmt_d_no_comma.
Qed.

Lemma parse_cwjap_response_reads_line_witness :
  parse_cwjap_response home_reply = Ok (Some home_info).
Proof.
  apply (parse_cwjap_response_reads_line home_reply [] [[]; []]
           (b "home") (b "aa:bb:cc:dd:ee:ff") 6 (-40) 1 1 3 0 1);
    try reflexivity; try constructor;
    intros H; repeat (destruct H as [H|H]; [discriminate|]); exact H.
Defined.

(** The status query does not return every integer code that follows
    [STATUS:]: of the code 12 it returns 1. *)
Lemma status_two_digit_code_counterexample :
  fst (send (mkSelf false) (b "AT+CIPSTATUS") 5 3 (reports_status 12))
    = Ok (b "STATUS:" ++ fmt_d 12 ++ CRLF)
  /\ fst (status (mkSelf false) (reports_status 12)) = Ok (Some 1%Z)
  /\ fst (status (mkSelf false) (reports_status 12)) <> Ok (Some 12%Z).
Proof. repeat split; vm_compute; congruence. Qed.

(** C9, amended. [status] reads one byte after the prefix: when the first
    line of the reply that starts with [STATUS:] goes on with a one-digit
    code [n], whatever comes after that digit, the status query returns
    [n]; when no line starts with [STATUS:] it returns [None]. *)
Theorem status_returns_first_digit
        (self : self_t) (w w' : World) (reply : bytes) :
  send self (b "AT+CIPSTATUS") 5 3 w = (Ok reply, w') ->
  (forall (pre post : list bytes) (n : Z) (rest : bytes),
      split CRLF reply = pre ++ (b "STATUS:" ++ fmt_d n ++ rest) :: post ->
      Forall (fun l => startswith (b "STATUS:") l = false) pre ->
      (0 <= n <= 9)%Z ->
      status self w = (Ok (Some n), w'))
  /\ (Forall (fun l => startswith (b "STATUS:") l = false) (split CRLF reply) ->
      status self w = (Ok None, w')).
Proof.
  intros Hsend. unfold status, bind, lift. rewrite Hsend. split.
  - intros pre post n rest Hsplit Hpre Hn. rewrite Hsplit.
    rewrite status_lines_first;
      [|assumption|apply (startswith_app (b "STATUS:"))].
    now rewrite one_digit.
  - intros Hnone. now rewrite status_lines_none.
Qed.

Lemma status_returns_first_digit_witness :
  status (mkSelf false) (reports_status 3) =
    (Ok (Some 3%Z),
     snd (send (mkSelf false) (b "AT+CIPSTATUS") 5 3 (reports_status 3))).
Proof.
  assert (Hsend : send (mkSelf false) (b "AT+CIPSTATUS") 5 3 (reports_status 3) =
                  (Ok (b "STATUS:3" ++ CRLF),
                   snd (send (mkSelf false) (b "AT+CIPSTATUS") 5 3 (reports_status 3))))
    by (vm_compute; reflexivity).
  apply (proj1 (status_returns_first_digit _ _ _ _ Hsend) [] [[]] 3%Z []);
    [vm_compute; reflexivity|constructor|lia].
Defined.

End Parsers.

(* ===================================================================== *)
(** * The scan parser: one record per [+CWLAP:(] line                     *)
(* ===================================================================== *)

Module ScanFacts.
Import Py Hw ESPC3 PyFacts ParserFacts Behaviour Scenario.

Lemma list_assign_ok {A : Type} (l : list A) (i : nat) (v : A) :
  i < length l ->
  exists l', list_assign l i v = Ok l'
             /\ length l' = length l
             /\ nth_error l' i = Some v
             /\ (forall j, j <> i -> nth_error l' j = nth_error l j).
Proof.
  revert i. induction l as [|x l IH]; intros i H; simpl in H; [lia|].
  destruct i as [|i]; simpl.
  - eexists. repeat split. intros [|j] Hj; [easy|reflexivity].
  - destruct (IH i) as (l' & -> & Hlen & Hi & Hj); [lia|].
    eexists. repeat split; simpl; auto.
    intros [|j] Hne; [reflexivity|]. apply Hj. lia.
Qed.

(** [int] raises nothing but [ValueError]. *)
Lemma int_raises (x : bytes) (e : exn) : int x = Raise e -> e = ValueError.
Proof.
  unfold int, unsigned_int. destruct (strip whitespace x) as [|c ds]; [congruence|].
  destruct (Byte.eqb c x2d).
  - destruct ds; [congruence|]. destruct (digits_val _ _); congruence.
  - destruct (Byte.eqb c x2b).
    + destruct ds; [congruence|]. destruct (digits_val _ _); congruence.
    + destruct (digits_val _ _); congruence.
Qed.

Lemma assign_post (i : nat) (val : bytes) (router : list value) (v : value) :
  length router = 12 -> i < 12 -> v = kept_value i val ->
  exists router', list_assign router i v = Ok router' /\ field_post i val router router'.
Proof.
  intros H12 Hi ->.
  destruct (list_assign_ok router i (kept_value i val)) as (r' & Er & Hlen & Hn & Hj);
    [lia|].
  exists r'. split; [assumption|]. repeat split; [congruence|assumption|assumption].
Qed.

Lemma int_field_post (i : nat) (val : bytes) (router : list value) :
  length router = 12 -> i < 12 -> utf8_check val = true ->
  (forall n, int val = Ok n -> VInt n = kept_value i val) ->
  (forall e, int val = Raise e -> VStr (strip [QUOTE] val) = kept_value i val) ->
  exists router',
    match set_int router i val with
    | Ok r => Ok r
    | Raise e =>
        if is_ValueError e
        then s <~ str_utf8 val ;; list_assign router i (VStr (strip [QUOTE] s))
        else Raise e
    end = Ok router'
    /\ field_post i val router router'.
Proof.
  intros H12 Hi Hutf Hok Hraise. unfold set_int, str_utf8. rewrite Hutf.
  destruct (int val) as [n|e] eqn:E; cbn [rbind].
  - destruct (assign_post i val router (VInt n) H12 Hi (Hok n eq_refl))
      as (r' & -> & Hp). eauto.
  - rewrite (int_raises _ _ E). cbn [is_ValueError].
    destruct (assign_post i val router (VStr (strip [QUOTE] val)) H12 Hi (Hraise e eq_refl))
      as (r' & -> & Hp). eauto.
Qed.

(** A decodable field never aborts the record: it ends up at its
    position, converted or as a string, and the rest is untouched. *)
Lemma get_AP_field_total (i : nat) (val : bytes) (router : list value) :
  length router = 12 -> i < 12 -> utf8_check val = true ->
  exists router', get_AP_field i val router = Ok router'
                  /\ field_post i val router router'.
Proof.
  intros H12 Hi Hutf. unfold get_AP_field, get_AP_convert.
  cases_upto 12 i; try lia.
  all: try (apply int_field_post; try assumption; try lia;
            intros ? E; cbn [kept_value]; now rewrite E).
  - (* the encryption method *)
    unfold str_utf8. rewrite Hutf.
    destruct (int val) as [n|e] eqn:E; cbn [rbind].
    + destruct (assign_post 0 val router
                  (VStr (dict_get encryption_mapping n Unknown)) H12 Hi)
        as (r' & -> & Hp); [cbn [kept_value]; now rewrite E|eauto].
    + rewrite (int_raises _ _ E). cbn [is_ValueError].
      destruct (assign_post 0 val router (VStr (strip [QUOTE] val)) H12 Hi)
        as (r' & -> & Hp); [cbn [kept_value]; now rewrite E|eauto].
  - (* the SSID *)
    unfold str_utf8. rewrite Hutf. cbn [rbind].
    destruct (assign_post 1 val router (VStr (strip [QUOTE] val)) H12 Hi eq_refl)
      as (r' & -> & Hp). eauto.
  - (* the MAC *)
    unfold str_utf8. rewrite Hutf. cbn [rbind].
    destruct (assign_post 3 val router (VStr val) H12 Hi eq_refl)
      as (r' & -> & Hp). eauto.
Qed.

(** Past the twelfth field nothing is stored. *)
Lemma get_AP_field_beyond (i : nat) (val : bytes) (router : list value) :
  12 <= i -> get_AP_field i val router = Ok router.
Proof.
  intros Hi. unfold get_AP_field, get_AP_convert.
  cases_upto 12 i; try lia. reflexivity.
Qed.

Lemma get_AP_fields_total (line : list bytes) (i : nat) (router : list value) :
  length router = 12 ->
  Forall (fun val => utf8_check val = true) line ->
  exists router',
    get_AP_fields i line router = Ok router'
    /\ length router' = 12
    /\ (forall j, j < i -> nth_error router' j = nth_error router j)
    /\ (forall k val, nth_error line k = Some val -> i + k < 12 ->
                      nth_error router' (i + k) = Some (kept_value (i + k) val)).
Proof.
  intros H12 Hall. revert i router H12.
  induction Hall as [|val line Hval _ IH]; intros i router H12.
  - exists router. repeat split; auto. intros [|k] v; discriminate.
  - cbn [get_AP_fields].
    assert (Hstep : exists r1, get_AP_field i val router = Ok r1
                               /\ length r1 = 12
                               /\ (i < 12 -> nth_error r1 i = Some (kept_value i val))
                               /\ (forall j, j <> i -> nth_error r1 j = nth_error router j)).
    { destruct (Nat.lt_ge_cases i 12) as [Hlt|Hge].
      - destruct (get_AP_field_total i val router H12 Hlt Hval)
          as (r1 & E & Hl & Hn & Hj). exists r1. auto.
      - exists router. rewrite get_AP_field_beyond by assumption.
        repeat split; auto. lia. }
    destruct Hstep as (r1 & -> & Hl1 & Hn1 & Hj1). cbn [rbind].
    destruct (IH (S i) r1 Hl1) as (r' & -> & Hl' & Hbefore & Hat).
    exists r'. repeat split; auto.
    + intros j Hj. rewrite Hbefore by lia. apply Hj1. lia.
    + intros [|k] v Hk Hlt.
      * injection Hk as <-. rewrite Nat.add_0_r in *.
        rewrite Hbefore by lia. now apply Hn1.
      * replace (i + S k) with (S i + k) by lia. apply Hat; [exact Hk|lia].
Qed.

End ScanFacts.

Module Scan.
Import Py Hw ESPC3 PyFacts ParserFacts ScanFacts Behaviour Scenario.

(** The labels for the codes 0 and 5 are not the ones of the
    specification's table. *)
Lemma encryption_label_counterexample :
  (exists router,
      get_AP_routers [cwlap_line (b "0") (b "-55")] = Ok [router]
      /\ nth_error router 0 = Some (VStr (b "Ninguna"))
      /\ VStr (b "Ninguna") <> VStr (spec_encryption_label 0))
  /\ (exists router,
      get_AP_routers [cwlap_line (b "5") (b "-55")] = Ok [router]
      /\ nth_error router 0 = Some (VStr (b "WPA2 Enterprise"))
      /\ VStr (b "WPA2 Enterprise") <> VStr (spec_encryption_label 5)).
Proof.
  split; eexists; (split; [vm_compute; reflexivity|]); split;
    [reflexivity|discriminate|reflexivity|discriminate].
Qed.

Lemma encryption_mapping_unknown (n : Z) :
  (n < 0 \/ 9 < n)%Z -> dict_get encryption_mapping n Unknown = b "Unknown".
Proof.
  intros H. unfold encryption_mapping. cbn [dict_get].
  repeat match goal with
         | |- context [Z.eqb n ?k] => destruct (Z.eqb_spec n k); [lia|]
         end.
  reflexivity.
Qed.

(** C7, amended. For a line that starts with [+CWLAP:(] and whose first
    field is an integer code [n], the first entry of the record is the
    label of [n] in the driver's table: 0 Ninguna, 1 WEP, 2 WPA-PSK,
    3 WPA2-PSK, 4 WPA/WPA2-PSK, 5 WPA2 Enterprise, 6 WPA3-PSK,
    7 WPA2/WPA3-PSK, 8 WAPI-PSK, 9 OWE, and Unknown for every other
    code. *)
Theorem encryption_label_of_code
        (line f0 : bytes) (rest : list bytes) (n : Z) :
  startswith (b "+CWLAP:(") line = true ->
  split [COMMA] (slice_from_drop_last 8 1 line) = f0 :: rest ->
  int f0 = Ok n ->
  Forall (fun val => utf8_check val = true) rest ->
  exists router label,
    get_AP_routers [line] = Ok [router]
    /\ nth_error router 0 = Some (VStr label)
    /\ (n = 0 -> label = b "Ninguna")%Z
    /\ (n = 1 -> label = b "WEP")%Z
    /\ (n = 2 -> label = b "WPA-PSK")%Z
    /\ (n = 3 -> label = b "WPA2-PSK")%Z
    /\ (n = 4 -> label = b "WPA/WPA2-PSK")%Z
    /\ (n = 5 -> label = b "WPA2 Enterprise")%Z
    /\ (n = 6 -> label = b "WPA3-PSK")%Z
    /\ (n = 7 -> label = b "WPA2/WPA3-PSK")%Z
    /\ (n = 8 -> label = b "WAPI-PSK")%Z
    /\ (n = 9 -> label = b "OWE")%Z
    /\ ((n < 0 \/ 9 < n)%Z -> label = b "Unknown").
Proof.
  intros Hpre Hsplit Hint Hutf.
  cbn [get_AP_routers]. rewrite Hpre. unfold get_AP_router. rewrite Hsplit.
  cbn [get_AP_fields]. unfold get_AP_field, get_AP_convert. rewrite Hint.
  cbn [rbind repeat list_assign].
  match goal with
  | |- context [get_AP_fields 1 rest ?r1] =>
      destruct (get_AP_fields_total rest 1 r1 eq_refl Hutf)
        as (router & -> & _ & Hbefore & _)
  end.
  exists router, (dict_get encryption_mapping n Unknown).
  split; [reflexivity|]. split; [now rewrite Hbefore by lia|].
  repeat split; try (intros ->; reflexivity).
  apply encryption_mapping_unknown.
Qed.

Lemma encryption_label_of_code_witness :
  exists router label,
    get_AP_routers [cwlap_line (b "3") (b "-55")] = Ok [router]
    /\ nth_error router 0 = Some (VStr label)
    /\ label = b "WPA2-PSK".
Proof.
  destruct (encryption_label_of_code (cwlap_line (b "3") (b "-55")) (b "3")
              [ [QUOTE] ++ b "MyNet" ++ [QUOTE]; b "-55";
                [QUOTE] ++ b "11:22:33:44:55:66" ++ [QUOTE];
                b "6"; b "0"; b "0"; b "0"; b "0"; b "0"; b "0"; b "0" ] 3%Z)
    as (router & label & Hr & H0 & _ & _ & _ & H3 & _);
    [reflexivity|reflexivity|reflexivity|repeat constructor|].
  exists router, label. split; [exact Hr|]. split; [exact H0|]. now apply H3.
Defined.

(** A numeric field that [int] refuses is kept as its quote-stripped
    text, and the record is produced, as long as the fields of the line can
    be decoded. *)
Theorem get_AP_keeps_unconverted_field
        (line : bytes) (fields : list bytes) (k : nat) (val : bytes) (e : exn) :
  startswith (b "+CWLAP:(") line = true ->
  split [COMMA] (slice_from_drop_last 8 1 line) = fields ->
  Forall (fun f => utf8_check f = true) fields ->
  nth_error fields k = Some val -> k < 12 -> k <> 1 -> k <> 3 ->
  int val = Raise e ->
  exists router,
    get_AP_routers [line] = Ok [router]
    /\ length router = 12
    /\ nth_error router k = Some (VStr (strip [QUOTE] val)).
Proof.
  intros Hpre Hsplit Hutf Hk Hlt H1 H3 Hint.
  cbn [get_AP_routers]. rewrite Hpre. unfold get_AP_router. rewrite Hsplit.
  destruct (get_AP_fields_total fields 0 (repeat (VStr Unknown) 12) eq_refl Hutf)
    as (router & -> & Hlen & _ & Hat).
  exists router. split; [reflexivity|]. split; [assumption|].
  rewrite (Hat k val Hk Hlt : nth_error router k = _).
  f_equal. cases_upto 12 k; try congruence; try (exfalso; lia);
    cbn [Nat.add kept_value]; now rewrite Hint.
Qed.

Lemma get_AP_keeps_unconverted_field_witness :
  exists router,
    get_AP_routers [cwlap_line (b "3") (b "n/a")] = Ok [router]
    /\ length router = 12
    /\ nth_error router 2 = Some (VStr (b "n/a")).
Proof.
  apply (get_AP_keeps_unconverted_field (cwlap_line (b "3") (b "n/a"))
           (split [COMMA] (slice_from_drop_last 8 1 (cwlap_line (b "3") (b "n/a"))))
           2 (b "n/a") ValueError); try reflexivity; try lia.
  vm_compute. repeat constructor.
Defined.

(** C8. With a signal strength field that is neither a number nor
    decodable text (the single byte FF), the conversion fails, the
    fallback fails in its turn, and the whole scan is lost. *)
Theorem get_AP_aborts_on_undecodable_field :
  int [xff] = Raise ValueError
  /\ get_AP_routers [cwlap_line (b "3") [xff]] = Raise UnicodeError
  /\ fst (get_AP (mkSelf false) 3 (scan_world [xff])) = Raise UnicodeError
  /\ exists router,
       fst (get_AP (mkSelf false) 3 (scan_world (b "n/a"))) = Ok [router]
       /\ nth_error router 2 = Some (VStr (b "n/a")).
Proof.
  repeat split; try (vm_compute; reflexivity).
  eexists. split; vm_compute; reflexivity.
Qed.

End Scan.

(* ===================================================================== *)
(** * The connection manager                                              *)
(* ===================================================================== *)

Module ConnectionFacts.
Import Py Hw ESPC3 PyFacts SendFacts Behaviour Scenario.

(** ** What a [send] writes *)

Lemma send_loop_txlog (self : self_t) (at_ : str) (timeout : Z) (n : nat)
      (w w' : World) (res : result bytes) :
  send_loop self n at_ timeout w = (res, w') ->
  exists k,
    k <= n
    /\ match res with Ok _ => 1 <= k | Raise _ => k = n end
    /\ txlog w' = txlog w ++ concat (repeat [at_; CRLF] k).
Proof.
  revert w. induction n as [|n IH]; intros w H.
  - injection H as <- <-. exists 0. simpl. now rewrite app_nil_r.
  - rewrite send_loop_S in H.
    destruct (send_attempt self at_ timeout w) as [r1 w1] eqn:Ea.
    apply send_attempt_spec in Ea as (_ & Htx & _).
    destruct (ends_OK r1).
    + injection H as <- <-. exists 1. simpl. repeat split; [lia|lia|assumption].
    + apply IH in H as (k & Hk & Hres & Htx').
      exists (S k). repeat split.
      * lia.
      * destruct res; lia.
      * rewrite Htx'. change (txlog (time_sleep 1 w1)) with (txlog w1).
        rewrite Htx. simpl. now rewrite <- app_assoc.
Qed.

Lemma sent_only_refl (P : bytes -> Prop) (w : World) : sent_only P w w.
Proof. exists []. split; [now rewrite app_nil_r|constructor]. Qed.

Lemma sent_only_trans (P : bytes -> Prop) (w1 w2 w3 : World) :
  sent_only P w1 w2 -> sent_only P w2 w3 -> sent_only P w1 w3.
Proof.
  intros (s1 & E1 & H1) (s2 & E2 & H2). exists (s1 ++ s2). split.
  - now rewrite E2, E1, app_assoc.
  - now apply Forall_app.
Qed.

Lemma send_sent_only (P : bytes -> Prop) (self : self_t) (at_ : str)
      (timeout retries : Z) (w w' : World) (res : result bytes) :
  P at_ -> P CRLF ->
  send self at_ timeout retries w = (res, w') -> sent_only P w w'.
Proof.
  intros Ha Hc H. apply send_loop_txlog in H as (k & _ & _ & Htx).
  exists (concat (repeat [at_; CRLF] k)). split; [assumption|].
  clear Htx. induction k as [|k IH]; simpl; auto.
Qed.

(** ** Nothing before the join loop is a join command *)

Lemma mode_not_join (self : self_t) (w w' : World) (res : result Z) :
  mode self w = (res, w') -> sent_only not_join w w'.
Proof.
  unfold mode, bind, lift.
  destruct (send self (b "AT+CWMODE?") 5 3 w) as [[reply|e] w1] eqn:Es;
    intros [= <- <-];
    eapply send_sent_only; try exact Es; reflexivity.
Qed.

Lemma set_mode_not_join (self : self_t) (m : Z) (w w' : World) (res : result unit) :
  set_mode self m w = (res, w') -> sent_only not_join w w'.
Proof.
  unfold set_mode, bind, raise, ret.
  destruct (negb _).
  - intros [= <- <-]. apply sent_only_refl.
  - destruct (send self (b "AT+CWMODE=" ++ fmt_d m) 3 3 w) as [[reply|e] w1] eqn:Es;
      intros [= <- <-];
      eapply send_sent_only; try exact Es; reflexivity.
Qed.

Lemma ensure_station_not_join (self : self_t) (w w' : World) (res : result unit) :
  ensure_station self w = (res, w') -> sent_only not_join w w'.
Proof.
  unfold ensure_station, bind.
  destruct (mode self w) as [[m|e] w1] eqn:Em.
  - apply mode_not_join in Em. destruct (negb _).
    + intros H. apply set_mode_not_join in H. eapply sent_only_trans; eassumption.
    + intros [= <- <-]. assumption.
  - apply mode_not_join in Em. intros [= <- <-]. assumption.
Qed.

End ConnectionFacts.

Module ConnectionManager.
Import Py Hw ESPC3 PyFacts SendFacts ParserFacts ConnectionFacts Behaviour Scenario.

(** C3. When the join-status query made at the start of [join_ap] yields a
    record whose [ssid] is the requested one, [join_ap] returns that record
    at once, and nothing it has written to the UART starts with
    [AT+CWJAP=]: no join command was sent. *)
Theorem join_ap_short_circuit
        (self : self_t) (ssid_ password : str) (w w1 w2 : World)
        (cwjap_reply : bytes) (info : ConnectionInfo) :
  ensure_station self w = (Ok tt, w1) ->
  send self (b "AT+CWJAP?") 10 3 w1 = (Ok cwjap_reply, w2) ->
  parse_cwjap_response cwjap_reply = Ok (Some info) ->
  ssid info = ssid_ ->
  join_ap self ssid_ password w = (Ok info, w2)
  /\ exists sent,
       txlog w2 = txlog w ++ sent
       /\ Forall (fun x => startswith (b "AT+CWJAP=") x = false) sent
       /\ ~ In (join_command ssid_ password) sent.
Proof.
  intros He Hs Hp Hssid. split.
  - unfold join_ap, bind, lift. rewrite He, Hs, Hp, Hssid.
    now rewrite eqb_bytes_refl.
  - apply ensure_station_not_join in He.
    apply (send_sent_only not_join) in Hs; [|reflexivity|reflexivity].
    destruct (sent_only_trans _ _ _ _ He Hs) as (sent & Htx & Hall).
    exists sent. repeat split; [assumption|assumption|].
    intros Hin. rewrite Forall_forall in Hall. apply Hall in Hin.
    unfold not_join, join_command in Hin.
    now rewrite (startswith_app (b "AT+CWJAP=")) in Hin.
Qed.

Lemma join_ap_short_circuit_witness :
  exists w2,
    join_ap (mkSelf false) (b "home") (b "pw") joined_home = (Ok home_info, w2)
    /\ exists sent,
         txlog w2 = txlog joined_home ++ sent
         /\ Forall (fun x => startswith (b "AT+CWJAP=") x = false) sent
         /\ ~ In (join_command (b "home") (b "pw")) sent.
Proof.
  exists (snd (join_ap (mkSelf false) (b "home") (b "pw") joined_home)).
  apply (join_ap_short_circuit (mkSelf false) (b "home") (b "pw") joined_home
           (snd (ensure_station (mkSelf false) joined_home)) _
           home_reply home_info);
    vm_compute; reflexivity.
Defined.

(** ** [ping] *)

(** C10. Every [ping] starts with a whole [AT+CIPV6=1] exchange.  When that
    exchange gets no [OK], [ping] fails with the exception of the exchange
    and has written nothing else; when it succeeds, what [ping] has
    written starts with the [AT+CIPV6=1] attempts (each followed by CR LF)
    and goes on with the [AT+PING] command. *)
Theorem ping_enables_ipv6_first (self : self_t) (host : str) (w : World) :
  exists (r1 : result bytes) (w1 : World) (k : nat),
    send self (b "AT+CIPV6=1") 3 3 w = (r1, w1)
    /\ 1 <= k
    /\ txlog w1 = txlog w ++ concat (repeat [b "AT+CIPV6=1"; CRLF] k)
    /\ match r1 with
       | Raise e => ping self host w = (Raise e, w1)
       | Ok _ =>
           exists later,
             txlog (snd (ping self host w)) =
               txlog w1 ++ [ping_command host; CRLF] ++ later
       end.
Proof.
  destruct (send self (b "AT+CIPV6=1") 3 3 w) as [r1 w1] eqn:E1.
  pose proof (send_loop_txlog _ _ _ _ _ _ _ E1) as (k & Hk & Hres & Htx).
  exists r1, w1, k. split; [reflexivity|].
  split; [destruct r1; [assumption|subst k; simpl; lia]|].
  split; [assumption|].
  unfold ping, enable_ipv6, bind, act, lift. rewrite E1.
  destruct r1 as [reply1|e]; [|reflexivity].
  set (w2 := print _ w1).
  destruct (send self (ping_command host) 5 3 w2) as [r2 w3] eqn:E2.
  pose proof (send_loop_txlog _ _ _ _ _ _ _ E2) as (k2 & Hk2 & Hres2 & Htx2).
  assert (H1 : 1 <= k2) by (destruct r2; [assumption|subst k2; simpl; lia]).
  destruct k2 as [|k2]; [lia|].
  exists (concat (repeat [ping_command host; CRLF] k2)).
  change (txlog w2) with (txlog w1) in Htx2.
  destruct r2 as [reply2|e2]; simpl; exact Htx2.
Qed.

(** The same on a run: a module that acknowledges both commands and
    answers the ping with 12 ms. *)
Example ping_run :
  let w := mkWorld 0 [] (quick OK_CRLF ++ quick (b "+PING:12" ++ CRLF ++ OK_CRLF)) [] [] in
  fst (ping (mkSelf false) (b "example.org") w) = Ok (Some 12%Z)
  /\ txlog (snd (ping (mkSelf false) (b "example.org") w)) =
       [b "AT+CIPV6=1"; CRLF; ping_command (b "example.org"); CRLF].
Proof. split; vm_compute; reflexivity. Qed.

(** ** [get_AP] *)

(** When the scan command gets no [OK], the exception of [send] is not a
    [RuntimeError]: it passes the [except] clause of [get_AP] and leaves
    the method at the first pass through its loop. *)
Theorem get_AP_lost_scan_raises
        (self : self_t) (retries : Z) (w w1 : World) :
  (0 < retries)%Z ->
  ensure_station self w = (Ok tt, w1) ->
  Forall (fun r => ends_OK r = false) (send_buffers self 3 (b "AT+CWLAP") 5 w1) ->
  exists w',
    get_AP self retries w = (Raise (Exception (b "No OK response to AT+CWLAP")), w')
    /\ txlog w' = txlog w1 ++ concat (repeat [b "AT+CWLAP"; CRLF] 3).
Proof.
  intros Hr He Hall.
  destruct (send_loop_raise self (b "AT+CWLAP") 5 3 w1 Hall) as (w' & Hs & Htx & _).
  exists w'. split; [|assumption].
  unfold get_AP. destruct (Z.to_nat retries) as [|n] eqn:En; [lia|].
  cbn [get_AP_loop]. unfold bind at 1. unfold try_except, bind.
  rewrite He. unfold send. change (Z.to_nat 3) with 3. rewrite Hs. reflexivity.
Qed.

(** C5. With three retries and a module that answers the mode query and
    then stays silent, [get_AP] does not return the empty list: it raises
    the exception of the first scan exchange, after a single [send] of the
    scan command (three writes), without going round its own loop again.
    (Only a failure raised as [RuntimeError], such as a mode reply without
    a mode, is retried and ends in the empty list.) *)
Theorem get_AP_timeout_escapes :
  fst (get_AP (mkSelf false) 3 scan_unanswered)
    = Raise (Exception (b "No OK response to AT+CWLAP"))
  /\ fst (get_AP (mkSelf false) 3 scan_unanswered) <> Ok []
  /\ txlog (snd (get_AP (mkSelf false) 3 scan_unanswered))
     = [b "AT+CWMODE?"; CRLF;
        b "AT+CWLAP"; CRLF; b "AT+CWLAP"; CRLF; b "AT+CWLAP"; CRLF]
  /\ fst (get_AP (mkSelf false) 3 mode_unreported) = Ok [].
Proof.
  repeat split; try (vm_compute; reflexivity).
  vm_compute. discriminate.
Qed.

(** ** [connect] *)

(** [connect] does not always return a boolean: after three caught
    failures it returns [None]. *)
Lemma connect_returns_none_counterexample :
  fst (connect (mkSelf false) home_secrets never_in_mode) = Ok None
  /\ (forall v : bool,
        fst (connect (mkSelf false) home_secrets never_in_mode) <> Ok (Some v))
  /\ length (console (snd (connect (mkSelf false) home_secrets never_in_mode))) = 3.
Proof.
  repeat split; try (vm_compute; reflexivity).
  intros v. vm_compute. discriminate.
Qed.

(** C6, amended. An attempt of [connect] that finds the device connected,
    or joins the access point, makes [connect] return [True] at once.  An
    attempt that fails with a [RuntimeError] is caught: the failure is
    printed, the driver sleeps two seconds and the loop goes on with one
    retry less.  After three attempts that failed in this way [connect]
    returns [None]. *)
Theorem connect_retries_runtime_errors
        (self : self_t) (secrets : list (str * str)) :
  connect self secrets = connect_loop self 3 secrets
  /\ (forall n w w1,
        is_connected self w = (Ok true, w1) ->
        connect_loop self (S n) secrets w = (Ok (Some true), w1))
  /\ (forall n w w1 w2 ssid_ password info,
        is_connected self w = (Ok false, w1) ->
        dict_item secrets (b "ssid") = Ok ssid_ ->
        dict_item secrets (b "password") = Ok password ->
        join_ap self ssid_ password w1 = (Ok info, w2) ->
        connect_loop self (S n) secrets w = (Ok (Some true), w2))
  /\ (forall n w w1 msg,
        connect_attempt self secrets w = (Raise (RuntimeError msg), w1) ->
        connect_loop self (S n) secrets w =
          connect_loop self n secrets (after_failure (RuntimeError msg) w1))
  /\ (forall w w1 w2 w3 m1 m2 m3,
        connect_attempt self secrets w = (Raise (RuntimeError m1), w1) ->
        connect_attempt self secrets (after_failure (RuntimeError m1) w1)
          = (Raise (RuntimeError m2), w2) ->
        connect_attempt self secrets (after_failure (RuntimeError m2) w2)
          = (Raise (RuntimeError m3), w3) ->
        connect self secrets w = (Ok None, after_failure (RuntimeError m3) w3)).
Proof.
  assert (Hcatch : forall n w w1 msg,
            connect_attempt self secrets w = (Raise (RuntimeError msg), w1) ->
            connect_loop self (S n) secrets w =
              connect_loop self n secrets (after_failure (RuntimeError msg) w1)).
  { intros n w w1 msg H. cbn [connect_loop]. unfold try_except. rewrite H.
    reflexivity. }
  split; [reflexivity|]. split; [|split; [|split; [exact Hcatch|]]].
  - intros n w w1 H. cbn [connect_loop]. unfold try_except, connect_attempt, bind.
    rewrite H. reflexivity.
  - intros n w w1 w2 ssid_ password info Hc Hs Hp Hj.
    cbn [connect_loop]. unfold try_except, connect_attempt, bind, lift.
    rewrite Hc. cbn [negb]. rewrite Hs, Hp, Hj. reflexivity.
  - intros w w1 w2 w3 m1 m2 m3 H1 H2 H3. unfold connect.
    rewrite (Hcatch _ _ _ _ H1), (Hcatch _ _ _ _ H2), (Hcatch _ _ _ _ H3).
    reflexivity.
Qed.

Lemma connect_retries_runtime_errors_witness :
  connect (mkSelf false) home_secrets (reports_status 2) =
    (Ok (Some true), snd (is_connected (mkSelf false) (reports_status 2))).
Proof.
  apply (proj1 (proj2 (connect_retries_runtime_errors (mkSelf false) home_secrets))
           2 (reports_status 2)).
  vm_compute. reflexivity.
Defined.

End ConnectionManager.

(* ===================================================================== *)
(** * More on the command channel: stream, clock, console                 *)
(* ===================================================================== *)

Module ChannelFacts.
Import Py Hw ESPC3 PyFacts SendFacts Behaviour Scenario.

(** ** The clock *)

Lemma time_time_mono (w w1 : World) (t : Z) :
  time_time w = (t, w1) -> (clock w <= t)%Z /\ clock w1 = t.
Proof.
  unfold time_time. destruct (script w) as [|[dt arrived] rest];
    intros [= <- <-]; simpl; split; lia.
Qed.

(** The loop never turns the clock back, and it only stops on a sentinel
    or once the timeout has passed. *)
Lemma poll_fuel_clock (fuel : nat) (timeout stamp : Z) (response : bytes)
      (w : World) (r : bytes) (w' : World) :
  poll_fuel fuel timeout stamp response w = Some (r, w') ->
  (clock w <= clock w')%Z
  /\ (ends_OK r = true \/ ends_ERROR r = true \/ (timeout <= clock w' - stamp)%Z).
Proof.
  revert response w. induction fuel as [|fuel IH]; intros response w H; [discriminate|].
  rewrite poll_fuel_S in H. destruct (time_time w) as [t w1] eqn:Et.
  apply time_time_mono in Et as [Hle Ht].
  destruct (Z.ltb_spec (t - stamp) timeout) as [Hlt|Hge].
  - destruct (uart_any w1).
    + destruct (uart_read 1 w1) as [x w2] eqn:Er. cbv zeta in H.
      assert (Hc : clock w2 = clock w1) by (inversion Er; reflexivity).
      destruct (ends_OK (response ++ x)) eqn:Eok;
        [injection H as <- <-; split; [lia|auto]|].
      destruct (ends_ERROR (response ++ x)) eqn:Eerr;
        [injection H as <- <-; split; [lia|auto]|].
      apply IH in H as [H1 H2]. split; [lia|assumption].
    + apply IH in H as [H1 H2]. split; [lia|assumption].
  - injection H as <- <-. split; [lia|]. right; right. lia.
Qed.

Lemma send_attempt_clock (self : self_t) (at_ : str) (timeout : Z) (w : World)
      (response : bytes) (w1 : World) :
  send_attempt self at_ timeout w = (response, w1) ->
  (clock w <= clock w1)%Z
  /\ (ends_OK response = false -> ends_ERROR response = false ->
      (clock w + timeout <= clock w1)%Z).
Proof.
  unfold send_attempt.
  set (wa := if _debug self then print _ w else w).
  assert (Ha : clock wa = clock w) by (subst wa; destruct (_debug self); reflexivity).
  clearbody wa.
  destruct (time_time _) as [stamp w2] eqn:Et.
  destruct (poll timeout stamp [] w2) as [r w3] eqn:Ep.
  intros [= <- <-].
  apply time_time_mono in Et as [Hle Hst]. simpl in Hle.
  pose proof (poll_is_poll_fuel timeout stamp [] w2) as Hf. rewrite Ep in Hf.
  apply poll_fuel_clock in Hf as [Hmono Hstop].
  assert (Hb : forall wb, clock (if _debug self
                                 then print [PStr (b "<--- rx "); PBytes r] wb
                                 else wb) = clock wb)
    by (intros wb; destruct (_debug self); reflexivity).
  rewrite Hb. split; [lia|].
  intros Hok Herr. destruct Hstop as [H|[H|H]]; [congruence|congruence|lia].
Qed.

(** With a timeout of zero or less the loop is left at its first test:
    nothing is read. *)
Lemma send_attempt_no_time (self : self_t) (at_ : str) (timeout : Z) (w : World) :
  (timeout <= 0)%Z -> fst (send_attempt self at_ timeout w) = [].
Proof.
  intros Hto. unfold send_attempt.
  set (wa := if _debug self then print _ w else w). clearbody wa.
  destruct (time_time _) as [stamp w2] eqn:Et.
  apply time_time_mono in Et as [_ Hst].
  rewrite poll_unfold. destruct (time_time w2) as [t w3] eqn:Et2.
  apply time_time_mono in Et2 as [Hle _].
  destruct (Z.ltb_spec (t - stamp) timeout) as [Hlt|Hge]; [lia|reflexivity].
Qed.

Section Attempts.
Variables (self : self_t) (at_ : str) (timeout : Z).

Lemma send_buffers_no_time (n : nat) (w : World) :
  (timeout <= 0)%Z -> send_buffers self n at_ timeout w = repeat [] n.
Proof.
  intros Hto. revert w. induction n as [|n IH]; intros w; [reflexivity|].
  rewrite send_buffers_S.
  pose proof (send_attempt_no_time self at_ timeout w Hto) as H0.
  destruct (send_attempt self at_ timeout w) as [r w1]. simpl in H0. subst r.
  rewrite ends_OK_nil. simpl. now rewrite IH.
Qed.

(** ** The stream of incoming bytes *)

Lemma send_loop_pending (n : nat) (w w' : World) (res : result bytes) :
  send_loop self n at_ timeout w = (res, w') ->
  pending w = concat (send_buffers self n at_ timeout w) ++ pending w'.
Proof.
  revert w. induction n as [|n IH]; intros w H.
  - injection H as <- <-. reflexivity.
  - rewrite send_loop_S in H. rewrite send_buffers_S.
    destruct (send_attempt self at_ timeout w) as [r1 w1] eqn:Ea.
    apply send_attempt_spec in Ea as (Hp & _ & _).
    destruct (ends_OK r1).
    + injection H as <- <-. simpl. now rewrite app_nil_r.
    + apply IH in H. change (pending (time_sleep 1 w1)) with (pending w1) in H.
      simpl. now rewrite <- app_assoc, <- H.
Qed.

Lemma send_loop_clock (n : nat) (w w' : World) (res : result bytes) :
  send_loop self n at_ timeout w = (res, w') ->
  (clock w <= clock w')%Z
  /\ match res with
     | Ok _ => True
     | Raise _ =>
         (clock w + Z.of_nat n <= clock w')%Z
         /\ ((0 <= timeout)%Z ->
             Forall (fun r => ends_ERROR r = false)
                    (send_buffers self n at_ timeout w) ->
             (clock w + Z.of_nat n * (timeout + 1) <= clock w')%Z)
     end.
Proof.
  revert w. induction n as [|n IH]; intros w H.
  - injection H as <- <-. simpl. repeat split; lia.
  - rewrite send_loop_S in H. rewrite send_buffers_S.
    destruct (send_attempt self at_ timeout w) as [r1 w1] eqn:Ea.
    apply send_attempt_clock in Ea as [Hmono Hwait].
    destruct (ends_OK r1) eqn:Eok.
    + injection H as <- <-. auto.
    + apply IH in H as [Hle Hres].
      change (clock (time_sleep 1 w1)) with (clock w1 + 1)%Z in *.
      split; [lia|]. destruct res as [payload|e]; [exact I|].
      destruct Hres as [Hn Hlong]. split; [lia|].
      intros Hto Hall. inversion Hall as [|? ? Herr Hrest]; subst.
      specialize (Hlong Hto Hrest). specialize (Hwait eq_refl Herr). nia.
Qed.

End Attempts.

(** ** The console *)

Lemma time_time_console (c : list (list printed)) (w : World) :
  time_time (set_console c w) =
  (fst (time_time w), set_console c (snd (time_time w))).
Proof.
  unfold time_time, set_console. simpl.
  destruct (script w) as [|[dt arrived] rest]; reflexivity.
Qed.

Lemma poll_fuel_console (c : list (list printed)) (fuel : nat) (timeout stamp : Z)
      (response : bytes) (w : World) :
  poll_fuel fuel timeout stamp response (set_console c w) =
  match poll_fuel fuel timeout stamp response w with
  | Some (r, w') => Some (r, set_console c w')
  | None => None
  end.
Proof.
  revert response w. induction fuel as [|fuel IH]; intros response w; [reflexivity|].
  rewrite !poll_fuel_S, time_time_console.
  destruct (time_time w) as [t w1]. cbn [fst snd].
  destruct (t - stamp <? timeout)%Z; [|reflexivity].
  change (uart_any (set_console c w1)) with (uart_any w1).
  destruct (uart_any w1); [|apply IH].
  change (uart_read 1 (set_console c w1))
    with (fst (uart_read 1 w1), set_console c (snd (uart_read 1 w1))).
  destruct (uart_read 1 w1) as [x w2]. cbn [fst snd]. cbv zeta.
  destruct (ends_OK _); [reflexivity|]. destruct (ends_ERROR _); [reflexivity|].
  apply IH.
Qed.

Lemma poll_console (c : list (list printed)) (timeout stamp : Z)
      (response : bytes) (w : World) :
  poll timeout stamp response (set_console c w) =
  (fst (poll timeout stamp response w),
   set_console c (snd (poll timeout stamp response w))).
Proof.
  pose proof (poll_is_poll_fuel timeout stamp response (set_console c w)) as H.
  change (poll_bound timeout stamp (set_console c w))
    with (poll_bound timeout stamp w) in H.
  rewrite poll_fuel_console, poll_is_poll_fuel in H.
  destruct (poll timeout stamp response w) as [r w'].
  injection H as <-. reflexivity.
Qed.

Lemma same_io_console (w : World) : same_io w (set_console [] w).
Proof. reflexivity. Qed.

Lemma send_attempt_same_io (self1 self2 : self_t) (at_ : str) (timeout : Z)
      (w1 w2 : World) :
  same_io w1 w2 ->
  fst (send_attempt self1 at_ timeout w1) = fst (send_attempt self2 at_ timeout w2)
  /\ same_io (snd (send_attempt self1 at_ timeout w1))
             (snd (send_attempt self2 at_ timeout w2)).
Proof.
  intros H.
  assert (Hgen : forall self w,
            send_attempt self at_ timeout w =
            (fst (send_attempt (mkSelf false) at_ timeout (set_console [] w)),
             set_console (console (snd (send_attempt self at_ timeout w)))
               (snd (send_attempt (mkSelf false) at_ timeout (set_console [] w))))).
  { intros self w. unfold send_attempt. cbn [_debug].
    set (wa := if _debug self then print _ w else w).
    assert (Ea : wa = set_console (console wa) (set_console [] w))
      by (subst wa; destruct (_debug self); destruct w; reflexivity).
    rewrite Ea at 1 2.
    change (uart_write CRLF (uart_write at_ (set_console (console wa) (set_console [] w))))
      with (set_console (console wa) (uart_write CRLF (uart_write at_ (set_console [] w)))).
    rewrite time_time_console.
    destruct (time_time (uart_write CRLF (uart_write at_ (set_console [] w))))
      as [stamp w2']. cbn [fst snd].
    rewrite poll_console.
    destruct (poll timeout stamp [] w2') as [r w3]. cbn [fst snd].
    destruct (_debug self); destruct w3; reflexivity. }
  rewrite (Hgen self1 w1), (Hgen self2 w2). cbn [fst snd].
  unfold same_io in H. rewrite H. split; reflexivity.
Qed.

End ChannelFacts.

Module ChannelProperties.
Import Py Hw ESPC3 PyFacts SendFacts ConnectionFacts ChannelFacts Behaviour Scenario.

(** X1. [send] takes its response buffers from the front of the incoming
    byte stream, in order and without dropping a byte: what was pending
    before the call is the buffers of its attempts followed by what is
    pending after it.  When it succeeds, the payload it returns is followed
    in the stream by [OK\r\n] and then by exactly the bytes left unread. *)
Theorem send_keeps_the_stream
        (self : self_t) (at_ : str) (timeout retries : Z) (w w' : World)
        (res : result bytes) :
  send self at_ timeout retries w = (res, w') ->
  pending w = concat (send_buffers self (Z.to_nat retries) at_ timeout w) ++ pending w'
  /\ match res with
     | Ok payload =>
         exists skipped, pending w = skipped ++ payload ++ OK_CRLF ++ pending w'
     | Raise _ => True
     end.
Proof.
  intros H. pose proof (send_loop_pending _ _ _ _ _ _ _ H) as Hp.
  split; [assumption|]. destruct res as [payload|e]; [|exact I].
  apply send_loop_inv in H as (bufs & Hb & _).
  exists (concat bufs). rewrite Hp, Hb, concat_app. simpl.
  now rewrite app_nil_r, <- !app_assoc.
Qed.

Lemma send_keeps_the_stream_witness :
  pending busy_then_ok =
    concat (send_buffers (mkSelf false) 3 (b "AT") 1 busy_then_ok)
    ++ pending (snd (send (mkSelf false) (b "AT") 1 3 busy_then_ok))
  /\ exists skipped,
       pending busy_then_ok =
         skipped ++ (b "hello" ++ CRLF) ++ OK_CRLF
         ++ pending (snd (send (mkSelf false) (b "AT") 1 3 busy_then_ok)).
Proof.
  apply (send_keeps_the_stream (mkSelf false) (b "AT") 1 3 busy_then_ok
           (snd (send (mkSelf false) (b "AT") 1 3 busy_then_ok))
           (Ok (b "hello" ++ CRLF))).
  vm_compute. reflexivity.
Defined.

(** X2. All that [send] writes to the UART is the command and CR LF, in
    turn, once per attempt: at least once and at most [retries] times when
    it succeeds, and never when [retries] is zero or less. *)
Theorem send_writes_command_and_crlf
        (self : self_t) (at_ : str) (timeout retries : Z) (w w' : World)
        (res : result bytes) :
  send self at_ timeout retries w = (res, w') ->
  exists k,
    k <= Z.to_nat retries
    /\ txlog w' = txlog w ++ concat (repeat [at_; CRLF] k)
    /\ match res with
       | Ok _ => 1 <= k
       | Raise _ => k = Z.to_nat retries
       end
    /\ ((retries <= 0)%Z -> txlog w' = txlog w).
Proof.
  intros H. apply send_loop_txlog in H as (k & Hk & Hres & Htx).
  exists k. repeat split; try assumption.
  intros Hr. replace k with 0 in Htx by lia. simpl in Htx.
  now rewrite app_nil_r in Htx.
Qed.

Lemma send_writes_command_and_crlf_witness :
  exists k,
    k <= 3
    /\ txlog (snd (send (mkSelf false) (b "AT") 1 3 busy_then_ok))
       = txlog busy_then_ok ++ concat (repeat [b "AT"; CRLF] k)
    /\ 1 <= k
    /\ ((3 <= 0)%Z ->
        txlog (snd (send (mkSelf false) (b "AT") 1 3 busy_then_ok)) = txlog busy_then_ok).
Proof.
  apply (send_writes_command_and_crlf (mkSelf false) (b "AT") 1 3 busy_then_ok
           (snd (send (mkSelf false) (b "AT") 1 3 busy_then_ok))
           (Ok (b "hello" ++ CRLF))).
  vm_compute. reflexivity.
Defined.

(** X3. [send] never turns the clock back, and a [send] that fails has
    taken at least one second per attempt (the pause before the next
    one).  When none of its attempts was cut short by [ERROR\r\n], each
    attempt also waited its timeout out: the call took at least
    [retries * (timeout + 1)] seconds. *)
Theorem send_failure_takes_time
        (self : self_t) (at_ : str) (timeout retries : Z) (w w' : World)
        (res : result bytes) :
  send self at_ timeout retries w = (res, w') ->
  (clock w <= clock w')%Z
  /\ match res with
     | Ok _ => True
     | Raise _ =>
         (clock w + Z.of_nat (Z.to_nat retries) <= clock w')%Z
         /\ ((0 <= timeout)%Z ->
             Forall (fun r => ends_ERROR r = false)
                    (send_buffers self (Z.to_nat retries) at_ timeout w) ->
             (clock w + Z.of_nat (Z.to_nat retries) * (timeout + 1) <= clock w')%Z)
     end.
Proof. apply send_loop_clock. Qed.

Lemma send_failure_takes_time_witness :
  (clock error_then_silent
   <= clock (snd (send (mkSelf false) (b "AT") 1 3 error_then_silent)))%Z
  /\ (clock error_then_silent + 3
      <= clock (snd (send (mkSelf false) (b "AT") 1 3 error_then_silent)))%Z.
Proof.
  destruct (send_failure_takes_time (mkSelf false) (b "AT") 1 3 error_then_silent
              (snd (send (mkSelf false) (b "AT") 1 3 error_then_silent))
              (Raise (Exception (b "No OK response to AT"))))
    as (H1 & H2 & _); [vm_compute; reflexivity|].
  split; [exact H1|exact H2].
Defined.

(** X4. With a timeout of zero or less [send] reads nothing at all: every
    attempt is over before its first look at the UART, so the call fails
    whatever the module has sent, and every pending byte is still
    pending. *)
Theorem send_without_time_reads_nothing
        (self : self_t) (at_ : str) (timeout retries : Z) (w : World) :
  (timeout <= 0)%Z ->
  exists w',
    send self at_ timeout retries w =
      (Raise (Exception (b "No OK response to " ++ at_)), w')
    /\ pending w' = pending w.
Proof.
  intros Hto.
  pose proof (send_buffers_no_time self at_ timeout (Z.to_nat retries) w Hto) as Hb.
  destruct (send_loop_raise self at_ timeout (Z.to_nat retries) w) as (w' & Hs & _ & _).
  { rewrite Hb. apply Forall_forall. intros r Hin.
    apply repeat_spec in Hin. now subst r. }
  exists w'. split; [exact Hs|].
  apply send_loop_pending in Hs. rewrite Hb in Hs.
  assert (Hnil : forall n, concat (repeat (@nil byte) n) = [])
    by (induction n; simpl; auto).
  now rewrite Hnil in Hs.
Qed.

Lemma send_without_time_reads_nothing_witness :
  exists w',
    send (mkSelf false) (b "AT") 0 3 busy_then_ok =
      (Raise (Exception (b "No OK response to " ++ b "AT")), w')
    /\ pending w' = pending busy_then_ok.
Proof.
  apply (send_without_time_reads_nothing (mkSelf false) (b "AT") 0 3 busy_then_ok).
  lia.
Defined.

(** X5. The debug flag changes nothing but the console: two calls of
    [send] that start in worlds differing at most in what was printed
    return the same result and leave the same clock, UART and write log,
    whatever their debug flags.  With the flag off [send] prints
    nothing. *)
Theorem send_debug_only_prints
        (self1 self2 : self_t) (at_ : str) (timeout retries : Z) (w1 w2 : World) :
  same_io w1 w2 ->
  fst (send self1 at_ timeout retries w1) = fst (send self2 at_ timeout retries w2)
  /\ same_io (snd (send self1 at_ timeout retries w1))
             (snd (send self2 at_ timeout retries w2))
  /\ (_debug self1 = false ->
      console (snd (send self1 at_ timeout retries w1)) = console w1).
Proof.
  unfold send. generalize (Z.to_nat retries) as n.
  intros n. revert w1 w2. induction n as [|n IH]; intros w1 w2 H.
  - simpl. auto.
  - rewrite !send_loop_S.
    pose proof (send_attempt_same_io self1 self2 at_ timeout w1 w2 H) as [Hr Hw].
    assert (Hq : _debug self1 = false ->
                 console (snd (send_attempt self1 at_ timeout w1)) = console w1).
    { intros Hd. unfold send_attempt. rewrite Hd.
      destruct (time_time _) as [stamp wa] eqn:Et.
      destruct (poll timeout stamp [] wa) as [r wb] eqn:Ep. cbn [snd].
      apply poll_inv in Ep as (_ & _ & Hc & _).
      apply time_time_pending in Et as (_ & _ & Hc2).
      rewrite Hc, Hc2. reflexivity. }
    destruct (send_attempt self1 at_ timeout w1) as [r1 wa].
    destruct (send_attempt self2 at_ timeout w2) as [r2 wb].
    cbn [fst snd] in *. subst r2.
    destruct (ends_OK r1).
    + cbn [fst snd]. auto.
    + assert (Hs : same_io (time_sleep 1 wa) (time_sleep 1 wb)).
      { unfold same_io, set_console, time_sleep in *. simpl.
        injection Hw as -> -> -> ->. reflexivity. }
      destruct (IH _ _ Hs) as (I1 & I2 & I3).
      repeat split; try assumption.
      intros Hd. rewrite (I3 Hd). simpl. now apply Hq.
Qed.

Lemma send_debug_only_prints_witness :
  fst (send (mkSelf true) (b "AT") 1 3 busy_then_ok)
    = fst (send (mkSelf false) (b "AT") 1 3 (print [PStr (b "boot")] busy_then_ok))
  /\ same_io (snd (send (mkSelf true) (b "AT") 1 3 busy_then_ok))
             (snd (send (mkSelf false) (b "AT") 1 3 (print [PStr (b "boot")] busy_then_ok)))
  /\ (_debug (mkSelf true) = false ->
      console (snd (send (mkSelf true) (b "AT") 1 3 busy_then_ok)) = console busy_then_ok).
Proof.
  apply (send_debug_only_prints (mkSelf true) (mkSelf false) (b "AT") 1 3
           busy_then_ok (print [PStr (b "boot")] busy_then_ok)).
  reflexivity.
Defined.

End ChannelProperties.

(* ===================================================================== *)
(** * More on the reply parsers                                           *)
(* ===================================================================== *)

Module ReplyFacts.
Import Py Hw ESPC3 PyFacts DecimalFacts ParserFacts Behaviour Scenario.







End ReplyFacts.

Module ReplyProperties.
Import Py Hw ESPC3 PyFacts DecimalFacts ParserFacts ReplyFacts Behaviour Scenario.



(** X7. Quotes around the host are optional: [ping] sends the same
    command for a host and for the same host between quote characters,
    namely [AT+PING=] and the host between one pair of quotes. *)
Theorem ping_command_quotes_once (host : str) :
  ~ In QUOTE host ->
  ping_command ([QUOTE] ++ host ++ [QUOTE]) = ping_command host
  /\ ping_command host = b "AT+PING=" ++ [QUOTE] ++ host ++ [QUOTE].
Proof.
  intros H. unfold ping_command.
  rewrite (strip_quoted host H).
  rewrite (strip_none [QUOTE] host); [split; reflexivity|].
  apply Forall_forall. intros c Hin. rewrite mem_quote.
  apply not_true_is_false. intros E. apply byte_eqb_eq in E. now subst c.
Qed.

Lemma ping_command_quotes_once_witness :
  ping_command ([QUOTE] ++ b "example.org" ++ [QUOTE]) = ping_command (b "example.org")
  /\ ping_command (b "example.org") = b "AT+PING=" ++ [QUOTE] ++ b "example.org" ++ [QUOTE].
Proof.
  apply (ping_command_quotes_once (b "example.org")).
  intros H. repeat (destruct H as [H|H]; [discriminate|]). exact H.
Defined.



(** X9. The mode setter checks its argument before it touches the UART:
    a mode other than 1, 2 and 3 is refused with a [RuntimeError] and the
    world is left as it was; for 1, 2 and 3 the only thing written is the
    [AT+CWMODE=] command with that digit, each time followed by CR LF,
    between one and three times. *)
Theorem set_mode_checks_before_writing (self : self_t) (m : Z) (w : World) :
  (m <> 1 /\ m <> 2 /\ m <> 3 ->
   set_mode self m w = (Raise (RuntimeError (b "Invalid Mode")), w))%Z
  /\ ((m = 1 \/ m = 2 \/ m = 3)%Z ->
      exists k,
        1 <= k <= 3
        /\ txlog (snd (set_mode self m w)) =
             txlog w ++ concat (repeat [b "AT+CWMODE=" ++ fmt_d m; CRLF] k)).
Proof.
  unfold set_mode. split.
  - intros (H1 & H2 & H3).
    destruct (Z.eqb_spec m 1), (Z.eqb_spec m 2), (Z.eqb_spec m 3); try lia.
    reflexivity.
  - intros Hm.
    assert (E : negb ((m =? 1) || (m =? 2) || (m =? 3))%Z = false).
    { destruct (Z.eqb_spec m 1), (Z.eqb_spec m 2), (Z.eqb_spec m 3);
        try reflexivity; lia. }
    rewrite E. unfold bind, ret.
    destruct (send self (b "AT+CWMODE=" ++ fmt_d m) 3 3 w) as [res w'] eqn:Es.
    apply ConnectionFacts.send_loop_txlog in Es as (k & Hk & Hres & Htx).
    change (Z.to_nat 3) with 3 in *.
    exists k. split; [destruct res; lia|]. destruct res; exact Htx.
Qed.

(** X10. [is_connected] is true exactly for the one-digit status codes 2,
    3 and 4; for the other digits, and for a reply without a status line,
    it is false and nothing is raised. *)
Theorem is_connected_reads_status
        (self : self_t) (w w' : World) (reply : bytes) :
  send self (b "AT+CIPSTATUS") 5 3 w = (Ok reply, w') ->
  (forall pre post n rest,
      split CRLF reply = pre ++ (b "STATUS:" ++ fmt_d n ++ rest) :: post ->
      Forall (fun l => startswith (b "STATUS:") l = false) pre ->
      (0 <= n <= 9)%Z ->
      is_connected self w = (Ok ((2 <=? n) && (n <=? 4))%Z, w'))
  /\ (Forall (fun l => startswith (b "STATUS:") l = false) (split CRLF reply) ->
      is_connected self w = (Ok false, w')).
Proof.
  intros Hs. unfold is_connected, status, bind, lift, ret. rewrite Hs. split.
  - intros pre post n rest Hsplit Hpre Hn. rewrite Hsplit.
    rewrite status_lines_first;
      [|assumption|apply (startswith_app (b "STATUS:"))].
    rewrite one_digit by assumption. cbn [rbind]. do 2 f_equal.
    unfold STATUS_APCONNECTED, STATUS_SOCKETOPEN, STATUS_SOCKETCLOSED.
    destruct (Z.eqb_spec n 2), (Z.eqb_spec n 3), (Z.eqb_spec n 4),
      (Z.leb_spec 2 n), (Z.leb_spec n 4); try reflexivity; lia.
  - intros Hnone. now rewrite status_lines_none.
Qed.

Lemma is_connected_reads_status_witness :
  is_connected (mkSelf false) (reports_status 3) =
    (Ok ((2 <=? 3) && (3 <=? 4))%Z,
     snd (is_connected (mkSelf false) (reports_status 3))).
Proof.
  apply (proj1 (is_connected_reads_status (mkSelf false) (reports_status 3)
                  (snd (is_connected (mkSelf false) (reports_status 3)))
                  (b "STATUS:3" ++ CRLF) ltac:(vm_compute; reflexivity))
           [] [[]] 3%Z []);
    [vm_compute; reflexivity|constructor|lia].
Defined.

(** X11. The join-status parser returns no partly filled record: when the
    first [+CWJAP:] line carries the ssid, the bssid and fewer than seven
    integers, it raises [IndexError]. *)
Theorem parse_cwjap_response_short_line_raises
        (reply : bytes) (pre post : list bytes) (ssid_ bssid_ : str) (ns : list Z) :
  split CRLF reply = pre ++ cwjap_line ssid_ bssid_ ns :: post ->
  Forall (fun l => startswith (b "+CWJAP:") l = false) pre ->
  utf8_check ssid_ = true -> ~ In COMMA ssid_ ->
  utf8_check bssid_ = true -> ~ In COMMA bssid_ ->
  length ns < 7 ->
  parse_cwjap_response reply = Raise IndexError.
Proof.
  intros Hsplit Hpre U0 C0 U1 C1 Hlen.
  assert (Hq : forall s, ~ In COMMA s -> mem_byte COMMA (quoted s) = false).
  { intros s Hs. apply mem_byte_notin. unfold quoted. intros Hin.
    apply in_app_or in Hin as [[E|[]]|Hin]; [discriminate|].
    apply in_app_or in Hin as [Hin|[E|[]]]; [contradiction|discriminate]. }
  unfold parse_cwjap_response. rewrite Hsplit.
  rewrite parse_cwjap_lines_first;
    [|assumption|apply (startswith_app (b "+CWJAP:"))].
  unfold parse_cwjap_line, cwjap_line.
  change (slice_from 7 (b "+CWJAP:" ++ ?x)) with x.
  rewrite split_join; [|discriminate|].
  2:{ constructor; [now apply Hq|]. constructor; [now apply Hq|].
      apply Forall_forall. intros f Hin. apply in_map_iff in Hin as (n & <- & _).
      apply fmt_d_no_comma. }
  cbn [list_item nth_error rbind]. unfold str_utf8.
  pose proof (utf8_check_quoted _ U0) as Q0.
  pose proof (utf8_check_quoted _ U1) as Q1.
  change ([QUOTE] ++ ssid_ ++ [QUOTE]) with (quoted ssid_) in Q0.
  change ([QUOTE] ++ bssid_ ++ [QUOTE]) with (quoted bssid_) in Q1.
  rewrite Q0, Q1. cbn [rbind].
  do 7 (destruct ns as [|? ns];
        [reflexivity
        |cbn [map list_item nth_error rbind]; rewrite int_fmt_d; cbn [rbind]]).
  simpl in Hlen. lia.
Qed.

Lemma parse_cwjap_response_short_line_raises_witness :
  parse_cwjap_response (cwjap_line (b "home") (b "aa:bb:cc:dd:ee:ff") [6; -40]%Z)
  = Raise IndexError.
Proof.
  apply (parse_cwjap_response_short_line_raises
           (cwjap_line (b "home") (b "aa:bb:cc:dd:ee:ff") [6; -40]%Z) [] []
           (b "home") (b "aa:bb:cc:dd:ee:ff") [6; -40]%Z);
    try reflexivity; try constructor; try (simpl; lia);
    intros H; repeat (destruct H as [H|H]; [discriminate|]); exact H.
Defined.

End ReplyProperties.

(* ===================================================================== *)
(** * More on the connection manager                                      *)
(* ===================================================================== *)

Module ManagerFacts.
Import Py Hw ESPC3 PyFacts SendFacts ParserFacts ScanFacts ConnectionFacts
       Behaviour Scenario.

(** ** Counting join commands *)

Lemma filter_pairs (f : bytes -> bool) (a c : bytes) (k : nat) :
  f c = false ->
  length (filter f (concat (repeat [a; c] k))) = if f a then k else 0.
Proof.
  intros Hc. induction k as [|k IH]; [now destruct (f a)|].
  cbn [repeat concat app filter]. rewrite Hc.
  destruct (f a); simpl; now rewrite IH.
Qed.

Lemma send_join_count (self : self_t) (at_ : str) (timeout retries : Z)
      (w w' : World) (res : result bytes) :
  send self at_ timeout retries w = (res, w') ->
  exists k, k <= Z.to_nat retries
            /\ join_count w' = join_count w + (if is_join at_ then k else 0).
Proof.
  intros H. apply send_loop_txlog in H as (k & Hk & _ & Htx).
  exists k. split; [assumption|].
  unfold join_count. rewrite Htx, filter_app, length_app. f_equal.
  now apply filter_pairs.
Qed.

Lemma send_other_join_count (self : self_t) (at_ : str) (timeout retries : Z)
      (w w' : World) (res : result bytes) :
  is_join at_ = false ->
  send self at_ timeout retries w = (res, w') ->
  join_count w' = join_count w.
Proof.
  intros Hj H. apply send_join_count in H as (k & _ & E).
  rewrite Hj in E. lia.
Qed.

Lemma sent_only_join_count (w w' : World) :
  sent_only not_join w w' -> join_count w' = join_count w.
Proof.
  intros (sent & Htx & Hall). unfold join_count.
  rewrite Htx, filter_app, length_app.
  assert (E : filter is_join sent = []).
  { clear Htx. induction Hall as [|x sent Hx _ IH]; [reflexivity|].
    cbn [filter]. unfold not_join in Hx.
    change (is_join x) with (startswith (b "AT+CWJAP=") x). now rewrite Hx. }
  rewrite E. simpl. lia.
Qed.

Lemma join_ap_loop_count (self : self_t) (n : nat) (ssid_ password : str)
      (w w' : World) (res : result ConnectionInfo) :
  join_ap_loop self n ssid_ password w = (res, w') ->
  join_count w <= join_count w' <= join_count w + 3 * n.
Proof.
  revert w. induction n as [|n IH]; intros w H.
  - injection H as <- <-. lia.
  - cbn [join_ap_loop] in H. unfold bind at 1 in H.
    destruct (send self (join_command ssid_ password) 15 3 w) as [[reply|e] w1] eqn:Es;
      apply send_join_count in Es as (k & Hk & Hc); change (Z.to_nat 3) with 3 in Hk;
      assert (Hlo : join_count w <= join_count w1 <= join_count w + 3)
        by (destruct (is_join _); lia); clear Hc.
    + destruct (contains _ reply && contains _ reply).
      * unfold bind at 1 in H.
        destruct (send self (b "AT+CWJAP?") 10 3 w1) as [[r2|e2] w2] eqn:Es2;
          apply send_other_join_count in Es2; try reflexivity.
        -- unfold bind, lift in H.
           destruct (parse_cwjap_response r2) as [[info|]|e3].
           ++ injection H as <- <-. lia.
           ++ apply IH in H. lia.
           ++ injection H as <- <-. lia.
        -- injection H as <- <-. lia.
      * apply IH in H. lia.
    + injection H as <- <-. lia.
Qed.

(** ** Where a returned record comes from *)


(** ** Missing keys *)

Lemma dict_item_missing {V : Type} (d : list (str * V)) (k : str) :
  ~ In k (map fst d) -> dict_item d k = Raise (KeyError k).
Proof.
  induction d as [|[k' v] d IH]; intros H; [reflexivity|].
  simpl in *. destruct (eqb_bytes k k') eqn:E.
  - apply eqb_bytes_eq in E. subst. exfalso. apply H. now left.
  - apply IH. intros Hin. apply H. now right.
Qed.

Lemma dict_item_found {V : Type} (d : list (str * V)) (k : str) (v : V) :
  dict_item d k = Ok v -> In (k, v) d.
Proof.
  induction d as [|[k' v'] d IH]; intros H; [discriminate|].
  simpl in *. destruct (eqb_bytes k k') eqn:E.
  - apply eqb_bytes_eq in E. injection H as ->. subst. now left.
  - right. now apply IH.
Qed.

End ManagerFacts.

Module ManagerProperties.
Import Py Hw ESPC3 PyFacts SendFacts ParserFacts ScanFacts ConnectionFacts
       ManagerFacts Behaviour Scenario.



(** X13. One call of [join_ap] writes the join command at most nine times
    (three attempts of a [send] with three retries), however the module
    answers and however the call ends; the mode and status queries before
    and between are no join commands. *)
Theorem join_ap_sends_at_most_nine_joins
        (self : self_t) (ssid_ password : str) (w : World) :
  join_count w <= join_count (snd (join_ap self ssid_ password w))
  /\ join_count (snd (join_ap self ssid_ password w)) <= join_count w + 9.
Proof.
  destruct (join_ap self ssid_ password w) as [res w'] eqn:H. cbn [snd].
  cut (join_count w <= join_count w' <= join_count w + 9); [lia|].
  revert H. unfold join_ap. unfold bind at 1.
  destruct (ensure_station self w) as [[[]|e] w1] eqn:Ee;
    apply ensure_station_not_join, sent_only_join_count in Ee;
    [|intros [= <- <-]; lia].
  unfold bind at 1.
  destruct (send self (b "AT+CWJAP?") 10 3 w1) as [[reply|e] w2] eqn:Es;
    apply send_other_join_count in Es; try reflexivity; [|intros [= <- <-]; lia].
  unfold bind, lift.
  assert (Hloop : join_ap_loop self 3 ssid_ password w2 = (res, w') ->
                  join_count w <= join_count w' <= join_count w + 9).
  { intros H. apply join_ap_loop_count in H. lia. }
  destruct (parse_cwjap_response reply) as [[found|]|e].
  - destruct (eqb_bytes (ssid found) ssid_); [intros [= <- <-]; lia|exact Hloop].
  - exact Hloop.
  - intros [= <- <-]. lia.
Qed.

(** X14. When the device is not connected and the secrets hold no [ssid]
    (or an [ssid] but no [password]), [connect] raises the [KeyError] of
    the missing key at once: it is no [RuntimeError], so nothing is
    retried, and no join is attempted. *)
Theorem connect_missing_key_raises
        (self : self_t) (secrets : list (str * str)) (w w1 : World) :
  is_connected self w = (Ok false, w1) ->
  (~ In (b "ssid") (map fst secrets) ->
   connect self secrets w = (Raise (KeyError (b "ssid")), w1))
  /\ (forall ssid_,
        dict_item secrets (b "ssid") = Ok ssid_ ->
        ~ In (b "password") (map fst secrets) ->
        connect self secrets w = (Raise (KeyError (b "password")), w1)).
Proof.
  intros Hc. unfold connect. cbn [connect_loop].
  unfold try_except, connect_attempt, bind, lift. rewrite Hc. cbn [negb].
  split.
  - intros Hk. rewrite (dict_item_missing secrets _ Hk). reflexivity.
  - intros ssid_ Hs Hk. rewrite Hs, (dict_item_missing secrets _ Hk). reflexivity.
Qed.

Lemma connect_missing_key_raises_witness :
  connect (mkSelf false) [(b "password", b "pw")] (reports_status 5) =
    (Raise (KeyError (b "ssid")),
     snd (is_connected (mkSelf false) (reports_status 5))).
Proof.
  apply (proj1 (connect_missing_key_raises (mkSelf false) [(b "password", b "pw")]
                  (reports_status 5)
                  (snd (is_connected (mkSelf false) (reports_status 5)))
                  ltac:(vm_compute; reflexivity))).
  intros [H|[]]. discriminate.
Defined.

End ManagerProperties.

(* ===================================================================== *)
(** * More on the scan                                                    *)
(* ===================================================================== *)

Module ScanMoreFacts.
Import Py Hw ESPC3 PyFacts ParserFacts ScanFacts Behaviour Scenario.

Lemma get_AP_fields_beyond (line : list bytes) (i : nat) (router : list value) :
  12 <= i -> get_AP_fields i line router = Ok router.
Proof.
  revert i. induction line as [|val line IH]; intros i Hi; [reflexivity|].
  cbn [get_AP_fields]. rewrite get_AP_field_beyond by assumption.
  cbn [rbind]. apply IH. lia.
Qed.

Lemma get_AP_fields_app (first extra : list bytes) (i : nat) (router : list value) :
  get_AP_fields i (first ++ extra) router =
  (router' <~ get_AP_fields i first router ;;
   get_AP_fields (i + length first) extra router').
Proof.
  revert i router. induction first as [|val first IH]; intros i router.
  - cbn [app get_AP_fields rbind length]. now rewrite Nat.add_0_r.
  - cbn [app get_AP_fields length].
    destruct (get_AP_field i val router) as [r1|e]; cbn [rbind]; [|reflexivity].
    rewrite IH. now replace (S i + length first) with (i + S (length first)) by lia.
Qed.

(** The fields of a line touch the positions they stand at and no
    other. *)
Lemma get_AP_fields_untouched (line : list bytes) (i : nat)
      (router router' : list value) :
  length router = 12 ->
  Forall (fun val => utf8_check val = true) line ->
  get_AP_fields i line router = Ok router' ->
  forall j, j < i \/ i + length line <= j -> nth_error router' j = nth_error router j.
Proof.
  intros H12 Hall. revert i router H12.
  induction Hall as [|val line Hval _ IH]; intros i router H12 H j Hj.
  - now injection H as <-.
  - cbn [get_AP_fields] in H. cbn [length] in Hj.
    destruct (Nat.lt_ge_cases i 12) as [Hlt|Hge].
    + destruct (get_AP_field_total i val router H12 Hlt Hval)
        as (r1 & E & Hl & _ & Hother).
      rewrite E in H. cbn [rbind] in H.
      rewrite (IH (S i) r1 Hl H j) by lia. apply Hother. lia.
    + rewrite get_AP_field_beyond in H by assumption. cbn [rbind] in H.
      apply (IH (S i) router H12 H j). lia.
Qed.

Lemma nth_error_repeat {A : Type} (x : A) (n j : nat) :
  j < n -> nth_error (repeat x n) j = Some x.
Proof.
  revert j. induction n as [|n IH]; intros j Hj; [lia|].
  destruct j as [|j]; [reflexivity|]. simpl. apply IH. lia.
Qed.

(** Decodable lines never abort the scan: there is one record of twelve
    entries per [+CWLAP:(] line, in the order of the lines. *)
Lemma get_AP_routers_total (scan : list bytes) :
  Forall (fun line => is_cwlap line = true -> decodable_line line) scan ->
  exists routers,
    get_AP_routers scan = Ok routers
    /\ Forall2 (fun line router => get_AP_router line = Ok router)
               (filter is_cwlap scan) routers
    /\ Forall (fun router => length router = 12) routers.
Proof.
  induction 1 as [|line scan Hline _ IH].
  - exists []. repeat split; constructor.
  - destruct IH as (routers & Hr & Hall & Hlen).
    cbn [get_AP_routers filter]. fold (is_cwlap line).
    destruct (is_cwlap line) eqn:E.
    + specialize (Hline eq_refl).
      destruct (get_AP_fields_total _ 0 (repeat (VStr Unknown) 12) eq_refl Hline)
        as (router & Hrouter & Hl & _).
      change (get_AP_router line = Ok router) in Hrouter.
      rewrite Hrouter, Hr. cbn [rbind].
      exists (router :: routers). repeat split; constructor; assumption.
    + exists routers. auto.
Qed.

End ScanMoreFacts.

Module ScanProperties.
Import Py Hw ESPC3 PyFacts ParserFacts ScanFacts ScanMoreFacts Behaviour Scenario.

(** X15. When the scan exchange succeeds and the fields of its
    [+CWLAP:(] lines can be decoded, [get_AP] returns after that one
    exchange with one record per such line, in the order of the lines;
    every record has twelve entries, and the other lines of the reply
    leave no trace. *)
Theorem get_AP_one_record_per_line
        (self : self_t) (retries : Z) (w w1 w2 : World) (reply : bytes) :
  (0 < retries)%Z ->
  ensure_station self w = (Ok tt, w1) ->
  send self (b "AT+CWLAP") 5 3 w1 = (Ok reply, w2) ->
  Forall (fun line => is_cwlap line = true -> decodable_line line)
         (split CRLF reply) ->
  exists routers,
    get_AP self retries w = (Ok routers, w2)
    /\ Forall2 (fun line router => get_AP_router line = Ok router)
               (filter is_cwlap (split CRLF reply)) routers
    /\ length routers = length (filter is_cwlap (split CRLF reply))
    /\ Forall (fun router => length router = 12) routers.
Proof.
  intros Hr He Hs Hall.
  destruct (get_AP_routers_total _ Hall) as (routers & Hrouters & H2 & Hlen).
  exists routers. repeat split; try assumption.
  - unfold get_AP. destruct (Z.to_nat retries) as [|n] eqn:En; [lia|].
    cbn [get_AP_loop]. unfold bind at 1. unfold try_except, bind.
    rewrite He, Hs. unfold ret, lift. now rewrite Hrouters.
  - symmetry. eapply Forall2_length. exact H2.
Qed.

Lemma get_AP_one_record_per_line_witness :
  exists routers,
    get_AP (mkSelf false) 3 (scan_world (b "-55")) =
      (Ok routers, snd (get_AP (mkSelf false) 3 (scan_world (b "-55"))))
    /\ Forall2 (fun line router => get_AP_router line = Ok router)
               (filter is_cwlap (split CRLF (cwlap_line (b "3") (b "-55") ++ CRLF ++ CRLF)))
               routers
    /\ length routers =
       length (filter is_cwlap (split CRLF (cwlap_line (b "3") (b "-55") ++ CRLF ++ CRLF)))
    /\ Forall (fun router => length router = 12) routers.
Proof.
  apply (get_AP_one_record_per_line (mkSelf false) 3 (scan_world (b "-55"))
           (snd (ensure_station (mkSelf false) (scan_world (b "-55"))))
           (snd (get_AP (mkSelf false) 3 (scan_world (b "-55"))))
           (cwlap_line (b "3") (b "-55") ++ CRLF ++ CRLF));
    [lia|vm_compute; reflexivity|vm_compute; reflexivity|].
  vm_compute. repeat constructor; intros; try discriminate; repeat constructor.
Defined.

(** X16. A record always has room for twelve fields and takes no more:
    what follows the twelfth field of a line is ignored, whatever it is,
    and a line with fewer than twelve (decodable) fields leaves the
    entries of the missing ones at [Unknown]. *)
Theorem get_AP_router_pads_and_truncates (line : bytes) (fields : list bytes) :
  split [COMMA] (slice_from_drop_last 8 1 line) = fields ->
  (forall first extra,
      fields = first ++ extra -> length first = 12 ->
      get_AP_router line = get_AP_fields 0 first (repeat (VStr Unknown) 12))
  /\ (Forall (fun f => utf8_check f = true) fields ->
      exists router,
        get_AP_router line = Ok router
        /\ length router = 12
        /\ forall j, length fields <= j < 12 ->
                     nth_error router j = Some (VStr Unknown)).
Proof.
  intros Hsplit. unfold get_AP_router. rewrite Hsplit. split.
  - intros first extra -> Hlen. rewrite get_AP_fields_app.
    destruct (get_AP_fields 0 first _) as [r|e]; cbn [rbind]; [|reflexivity].
    apply get_AP_fields_beyond. lia.
  - intros Hutf.
    destruct (get_AP_fields_total fields 0 (repeat (VStr Unknown) 12) eq_refl Hutf)
      as (router & Hr & Hl & _).
    exists router. repeat split; try assumption.
    intros j Hj.
    rewrite (get_AP_fields_untouched fields 0 (repeat (VStr Unknown) 12) router
               eq_refl Hutf Hr j) by lia.
    apply nth_error_repeat. lia.
Qed.

Lemma get_AP_router_pads_and_truncates_witness :
  exists router,
    get_AP_router (b "+CWLAP:(3,-55)") = Ok router
    /\ length router = 12
    /\ forall j, 2 <= j < 12 -> nth_error router j = Some (VStr Unknown).
Proof.
  apply (proj2 (get_AP_router_pads_and_truncates (b "+CWLAP:(3,-55)")
                  [b "3"; b "-55"] eq_refl)).
  repeat constructor.
Defined.

End ScanProperties.

(* ===================================================================== *)
(** * The address queries and [remote_AP]                                 *)
(* ===================================================================== *)

Module AddressFacts.
Import Py Hw ESPC3 PyFacts DecimalFacts ParserFacts ScanFacts Behaviour Scenario.

(** [line[n:-1]] of a line made of [n] leading bytes, a middle and one last
    byte is the middle. *)
Lemma slice_between (p x : bytes) (last : byte) :
  slice_from_drop_last (length p) 1 (p ++ x ++ [last]) = x.
Proof.
  unfold slice_from_drop_last.
  rewrite skipn_app, skipn_all, Nat.sub_diag. cbn [skipn app].
  rewrite !length_app. cbn [length].
  replace (length p + (length x + 1) - 1 - length p) with (length x + 0) by lia.
  rewrite firstn_app, Nat.add_0_r, firstn_all.
  replace (length x - length x) with 0 by lia. apply app_nil_r.
Qed.

Lemma local_ip_lines_first (pre post : list bytes) (line : bytes) :
  Forall (fun l => startswith STAIP_prefix l = false) pre ->
  startswith STAIP_prefix line = true ->
  local_ip_lines (pre ++ line :: post) = str_utf8 (slice_from_drop_last 14 1 line).
Proof.
  intros Hpre Hline. induction Hpre as [|l pre Hl _ IH]; cbn [app local_ip_lines].
  - now rewrite Hline.
  - now rewrite Hl.
Qed.

Lemma local_ip_lines_none (lines : list bytes) :
  Forall (fun l => startswith STAIP_prefix l = false) lines ->
  local_ip_lines lines = Raise (RuntimeError (b "Couldn't find IP address")).
Proof.
  intros H. induction H as [|l lines Hl _ IH]; cbn [local_ip_lines];
    [reflexivity|now rewrite Hl].
Qed.

Lemma get_mac_address_lines_first (pre post : list bytes) (line : bytes) :
  Forall (fun l => startswith STAMAC_prefix l = false) pre ->
  startswith STAMAC_prefix line = true ->
  get_mac_address_lines (pre ++ line :: post) =
  str_utf8 (slice_from_drop_last 15 1 line).
Proof.
  intros Hpre Hline. induction Hpre as [|l pre Hl _ IH];
    cbn [app get_mac_address_lines].
  - now rewrite Hline.
  - now rewrite Hl.
Qed.

Lemma get_mac_address_lines_none (lines : list bytes) :
  Forall (fun l => startswith STAMAC_prefix l = false) lines ->
  get_mac_address_lines lines = Raise (RuntimeError (b "Couldn't find MAC address")).
Proof.
  intros H. induction H as [|l lines Hl _ IH]; cbn [get_mac_address_lines];
    [reflexivity|now rewrite Hl].
Qed.

(** ** [remote_AP] *)

(** The conversions of [remote_AP] raise nothing its [except] clause lets
    through. *)
Lemma remote_AP_fields_raises (reply : list bytes) (e : exn) :
  remote_AP_fields reply = Raise e ->
  is_ValueError e || is_IndexError e = true.
Proof.
  unfold remote_AP_fields, list_item, str_utf8.
  repeat match goal with
         | |- context [nth_error reply ?i] =>
             destruct (nth_error reply i); cbn [rbind];
             [|intros [= <-]; reflexivity]
         | |- context [utf8_check ?x] =>
             destruct (utf8_check x); cbn [rbind];
             [|intros [= <-]; reflexivity]
         | |- context [int ?x] =>
             let E := fresh "E" in
             destruct (int x) eqn:E; cbn [rbind];
             [|intros [= <-]; rewrite (int_raises _ _ E); reflexivity]
         end.
  discriminate.
Qed.

Lemma remote_AP_lines_total (replies : list bytes) (w : World) :
  exists v w', remote_AP_lines replies w = (Ok v, w') /\ length v = 4.
Proof.
  induction replies as [|reply rest IH]; cbn [remote_AP_lines].
  - exists four_nones, w. split; reflexivity.
  - destruct (startswith (b "+CWJAP:") reply); [|exact IH].
    unfold bind, act, try_except, lift, ret.
    destruct (remote_AP_fields _) as [v|e] eqn:E.
    + eexists _, _. split; [reflexivity|].
      unfold remote_AP_fields in E.
      repeat match type of E with
             | context [rbind ?r _] => destruct r; cbn [rbind] in E; [|discriminate]
             end.
      now injection E as <-.
    + rewrite (remote_AP_fields_raises _ _ E).
      eexists _, _. split; reflexivity.
Qed.

Lemma remote_AP_lines_first (pre post : list bytes) (line : bytes) (w : World) :
  Forall (fun l => startswith (b "+CWJAP:") l = false) pre ->
  startswith (b "+CWJAP:") line = true ->
  fst (remote_AP_lines (pre ++ line :: post) w) =
  match remote_AP_fields (split [COMMA] (slice_from 7 line)) with
  | Ok v => Ok v
  | Raise _ => Ok four_nones
  end.
Proof.
  intros Hpre Hline. induction Hpre as [|l pre Hl _ IH]; cbn [app remote_AP_lines].
  - rewrite Hline. unfold bind, act, try_except, lift, ret.
    destruct (remote_AP_fields _) as [v|e] eqn:E; [reflexivity|].
    now rewrite (remote_AP_fields_raises _ _ E).
  - now rewrite Hl.
Qed.

End AddressFacts.

Module AddressProperties.
Import Py Hw ESPC3 PyFacts DecimalFacts ParserFacts ScanFacts AddressFacts
       Behaviour Scenario.

(** X17. [local_ip] returns what stands between the station-IP marker and
    the last byte of the first line that starts with the marker; it does
    not look at that last byte.  Without such a line it raises its
    could-not-find error. *)
Theorem local_ip_reads_the_address
        (self : self_t) (w w' : World) (reply : bytes) :
  send self (b "AT+CIFSR") 20 3 w = (Ok reply, w') ->
  (forall pre post ip last,
      split CRLF (strip CRLF reply) = pre ++ (STAIP_prefix ++ ip ++ [last]) :: post ->
      Forall (fun l => startswith STAIP_prefix l = false) pre ->
      utf8_check ip = true ->
      local_ip self w = (Ok ip, w'))
  /\ (Forall (fun l => startswith STAIP_prefix l = false)
             (split CRLF (strip CRLF reply)) ->
      local_ip self w = (Raise (RuntimeError (b "Couldn't find IP address")), w')).
Proof.
  intros Hs. unfold local_ip, bind, lift. rewrite Hs. split.
  - intros pre post ip last Hsplit Hpre Hutf. rewrite Hsplit.
    rewrite local_ip_lines_first; [|assumption|apply startswith_app].
    rewrite (slice_between STAIP_prefix ip last : slice_from_drop_last 14 1 _ = ip).
    unfold str_utf8. now rewrite Hutf.
  - intros Hnone. now rewrite local_ip_lines_none.
Qed.

Lemma local_ip_reads_the_address_witness :
  local_ip (mkSelf false) address_world =
    (Ok (b "192.168.1.7"), snd (local_ip (mkSelf false) address_world)).
Proof.
  apply (proj1 (local_ip_reads_the_address (mkSelf false) address_world
                  (snd (local_ip (mkSelf false) address_world))
                  (address_reply ++ CRLF ++ CRLF) ltac:(vm_compute; reflexivity))
           [] [STAMAC_prefix ++ b "aa:bb:cc:dd:ee:ff" ++ [QUOTE]]
           (b "192.168.1.7") QUOTE);
    [vm_compute; reflexivity|constructor|reflexivity].
Defined.

(** X18. [get_mac_address] does the same with the station-MAC marker. *)
Theorem get_mac_address_reads_the_address
        (self : self_t) (w w' : World) (reply : bytes) :
  send self (b "AT+CIFSR") 20 3 w = (Ok reply, w') ->
  (forall pre post mac last,
      split CRLF (strip CRLF reply) = pre ++ (STAMAC_prefix ++ mac ++ [last]) :: post ->
      Forall (fun l => startswith STAMAC_prefix l = false) pre ->
      utf8_check mac = true ->
      get_mac_address self w = (Ok mac, w'))
  /\ (Forall (fun l => startswith STAMAC_prefix l = false)
             (split CRLF (strip CRLF reply)) ->
      get_mac_address self w =
        (Raise (RuntimeError (b "Couldn't find MAC address")), w')).
Proof.
  intros Hs. unfold get_mac_address, bind, lift. rewrite Hs. split.
  - intros pre post mac last Hsplit Hpre Hutf. rewrite Hsplit.
    rewrite get_mac_address_lines_first; [|assumption|apply startswith_app].
    rewrite (slice_between STAMAC_prefix mac last : slice_from_drop_last 15 1 _ = mac).
    unfold str_utf8. now rewrite Hutf.
  - intros Hnone. now rewrite get_mac_address_lines_none.
Qed.

Lemma get_mac_address_reads_the_address_witness :
  get_mac_address (mkSelf false) address_world =
    (Ok (b "aa:bb:cc:dd:ee:ff"), snd (get_mac_address (mkSelf false) address_world)).
Proof.
  apply (proj1 (get_mac_address_reads_the_address (mkSelf false) address_world
                  (snd (get_mac_address (mkSelf false) address_world))
                  (address_reply ++ CRLF ++ CRLF) ltac:(vm_compute; reflexivity))
           [STAIP_prefix ++ b "192.168.1.7" ++ [QUOTE]] []
           (b "aa:bb:cc:dd:ee:ff") QUOTE);
    [vm_compute; reflexivity|repeat constructor|reflexivity].
Defined.

(** X19. With the status at 2, [remote_AP] reads the first four fields of
    the first [+CWJAP:] line: the ssid without its quotes, the bssid as it
    stands, quotes and all, and the channel and the signal strength as
    integers. *)
Theorem remote_AP_reads_four_fields
        (self : self_t) (w w1 w2 : World) (reply : bytes) (pre post : list bytes)
        (ssid_ bssid_ : str) (n2 n3 : Z) (rest : list Z) :
  status self w = (Ok (Some 2%Z), w1) ->
  send self (b "AT+CWJAP?") 10 3 w1 = (Ok reply, w2) ->
  split CRLF reply = pre ++ cwjap_line ssid_ bssid_ (n2 :: n3 :: rest) :: post ->
  Forall (fun l => startswith (b "+CWJAP:") l = false) pre ->
  utf8_check ssid_ = true -> ~ In QUOTE ssid_ -> ~ In COMMA ssid_ ->
  utf8_check bssid_ = true -> ~ In COMMA bssid_ ->
  fst (remote_AP self w) =
    Ok [Some (VStr ssid_); Some (VStr (quoted bssid_));
        Some (VInt n2); Some (VInt n3)].
Proof.
  intros Hst Hs Hsplit Hpre U0 Q0 C0 U1 C1.
  assert (Hq : forall s, ~ In COMMA s -> mem_byte COMMA (quoted s) = false).
  { intros s Hc. apply mem_byte_notin. unfold quoted. intros Hin.
    apply in_app_or in Hin as [[E|[]]|Hin]; [discriminate|].
    apply in_app_or in Hin as [Hin|[E|[]]]; [contradiction|discriminate]. }
  unfold remote_AP, bind. rewrite Hst.
  unfold STATUS_APCONNECTED. cbn [Z.eqb Pos.eqb negb]. rewrite Hs, Hsplit.
  rewrite remote_AP_lines_first;
    [|assumption|apply (startswith_app (b "+CWJAP:"))].
  unfold cwjap_line. change (slice_from 7 (b "+CWJAP:" ++ ?x)) with x.
  rewrite split_join; [|discriminate|].
  2:{ constructor; [now apply Hq|]. constructor; [now apply Hq|].
      apply Forall_forall. intros f Hin. apply in_map_iff in Hin as (n & <- & _).
      apply fmt_d_no_comma. }
  unfold remote_AP_fields. cbn [map list_item nth_error rbind]. unfold str_utf8.
  pose proof (utf8_check_quoted _ U0) as E0.
  pose proof (utf8_check_quoted _ U1) as E1.
  change ([QUOTE] ++ ssid_ ++ [QUOTE]) with (quoted ssid_) in E0.
  change ([QUOTE] ++ bssid_ ++ [QUOTE]) with (quoted bssid_) in E1.
  rewrite E0, E1. cbn [rbind]. rewrite !int_fmt_d. cbn [rbind].
  change (strip [QUOTE] (quoted ssid_)) with (strip [QUOTE] ([QUOTE] ++ ssid_ ++ [QUOTE])).
  now rewrite (strip_quoted ssid_ Q0).
Qed.

Lemma remote_AP_reads_four_fields_witness :
  fst (remote_AP (mkSelf false) connected_home) =
    Ok [Some (VStr (b "home")); Some (VStr (quoted (b "aa:bb:cc:dd:ee:ff")));
        Some (VInt 6); Some (VInt (-40))].
Proof.
  apply (remote_AP_reads_four_fields (mkSelf false) connected_home
           (snd (status (mkSelf false) connected_home))
           (snd (send (mkSelf false) (b "AT+CWJAP?") 10 3
                   (snd (status (mkSelf false) connected_home))))
           home_reply [] [[]; []] (b "home") (b "aa:bb:cc:dd:ee:ff")
           6 (-40) [1; 1; 3; 0; 1]%Z);
    try (vm_compute; reflexivity); try constructor;
    intros H; repeat (destruct H as [H|H]; [discriminate|]); exact H.
Defined.

(** X20. [remote_AP] always answers with four entries.  With a status
    other than 2 (or none) they are four times [None] and no join-status
    query is made; with the status at 2 and a reply to the query, no line
    of the reply, however garbled, makes it raise. *)
Theorem remote_AP_always_four
        (self : self_t) (w w1 : World) (state : option Z) :
  status self w = (Ok state, w1) ->
  (state <> Some 2%Z -> remote_AP self w = (Ok four_nones, w1))
  /\ (state = Some 2%Z ->
      forall reply w2,
        send self (b "AT+CWJAP?") 10 3 w1 = (Ok reply, w2) ->
        exists v w', remote_AP self w = (Ok v, w') /\ length v = 4).
Proof.
  intros Hst. unfold remote_AP, bind. rewrite Hst. split.
  - intros Hne. destruct state as [n|]; [|reflexivity].
    destruct (Z.eqb_spec n STATUS_APCONNECTED) as [->|Hn]; [|reflexivity].
    now destruct Hne.
  - intros -> reply w2 Hs.
    unfold STATUS_APCONNECTED. cbn [Z.eqb Pos.eqb negb].
    rewrite Hs. apply remote_AP_lines_total.
Qed.

Lemma remote_AP_always_four_witness :
  remote_AP (mkSelf false) (reports_status 5) =
    (Ok four_nones, snd (status (mkSelf false) (reports_status 5))).
Proof.
  apply (proj1 (remote_AP_always_four (mkSelf false) (reports_status 5)
                  (snd (status (mkSelf false) (reports_status 5))) (Some 5%Z)
                  ltac:(vm_compute; reflexivity))).
  discriminate.
Defined.

End AddressProperties.

(* ===================================================================== *)
(** * [get_ip]                                                            *)
(* ===================================================================== *)

Module GetIpFacts.
Import Py Hw ESPC3 PyFacts DecimalFacts ParserFacts Behaviour Scenario.

(** ** Characters of ASCII text *)

Lemma ascii_not_cont (c : byte) :
  (Byte.to_N c <? 128)%N = true -> utf8_is_cont (Byte.to_N c) = false.
Proof.
  intros H. unfold utf8_is_cont. apply N.ltb_lt in H.
  destruct (N.leb_spec 128 (Byte.to_N c)); [lia|reflexivity].
Qed.

Lemma chars_go_ascii (cur s : bytes) :
  Forall ascii s ->
  chars_go cur s =
  match cur with [] => [] | _ :: _ => [cur] end ++ map (fun c => [c]) s.
Proof.
  intros H. revert cur. induction H as [|c s Hc _ IH]; intros cur.
  - destruct cur; reflexivity.
  - cbn [chars_go]. rewrite (ascii_not_cont c Hc).
    destruct cur; rewrite IH; reflexivity.
Qed.

Lemma chars_ascii (s : bytes) : Forall ascii s -> chars s = map (fun c => [c]) s.
Proof. intros H. unfold chars. now rewrite chars_go_ascii. Qed.

Lemma single_eqb (c d : byte) : eqb_bytes [c] [d] = Byte.eqb c d.
Proof. simpl. apply andb_true_r. Qed.

Lemma not_quote (c : byte) (s : bytes) :
  ~ In QUOTE (c :: s) -> Byte.eqb c QUOTE = false /\ ~ In QUOTE s.
Proof.
  intros H. split.
  - apply not_true_is_false. intros E. apply byte_eqb_eq in E. subst c.
    apply H. now left.
  - intros Hin. apply H. now right.
Qed.

Lemma index_of_first (head rest : bytes) (i : Z) :
  ~ In QUOTE head ->
  index_of [QUOTE] (map (fun c => [c]) (head ++ QUOTE :: rest)) i
  = (i + Z.of_nat (length head))%Z.
Proof.
  revert i. induction head as [|c head IH]; intros i H.
  - cbn [app map index_of length]. rewrite single_eqb, byte_eqb_refl. lia.
  - apply not_quote in H as [Hc H].
    cbn [app map index_of length]. rewrite single_eqb, Hc, IH by assumption. lia.
Qed.

Lemma rindex_of_none (s : bytes) (i found : Z) :
  ~ In QUOTE s -> rindex_of [QUOTE] (map (fun c => [c]) s) i found = found.
Proof.
  revert i. induction s as [|c s IH]; intros i H; [reflexivity|].
  apply not_quote in H as [Hc H].
  cbn [map rindex_of]. rewrite single_eqb, Hc. now apply IH.
Qed.

Lemma rindex_of_last (a tail : bytes) (i found : Z) :
  ~ In QUOTE tail ->
  rindex_of [QUOTE] (map (fun c => [c]) (a ++ QUOTE :: tail)) i found
  = (i + Z.of_nat (length a))%Z.
Proof.
  intros Ht. revert i found. induction a as [|c a IH]; intros i found.
  - cbn [app map rindex_of length]. rewrite single_eqb, byte_eqb_refl.
    rewrite rindex_of_none by assumption. lia.
  - cbn [app map rindex_of length]. rewrite IH. lia.
Qed.

Lemma concat_singles (s : bytes) : concat (map (fun c => [c]) s) = s.
Proof. induction s as [|c s IH]; [reflexivity|]. simpl. now rewrite IH. Qed.

(** The slice from just after the first quote to the last quote. *)
Lemma str_slice_between (head ip tail : bytes) :
  Forall ascii head -> Forall ascii ip -> Forall ascii tail ->
  ~ In QUOTE head -> ~ In QUOTE tail ->
  let line := head ++ [QUOTE] ++ ip ++ [QUOTE] ++ tail in
  str_slice (str_find QUOTE line + 1) (str_rfind QUOTE line) line = ip.
Proof.
  intros Hh Hi Ht Qh Qt line.
  assert (Ha : Forall ascii line).
  { subst line. repeat (apply Forall_app; split); try assumption;
      repeat constructor. }
  unfold str_slice, str_find, str_rfind. rewrite (chars_ascii line Ha).
  subst line. cbn [app].
  rewrite (index_of_first head (ip ++ QUOTE :: tail) 0 Qh).
  replace (head ++ QUOTE :: ip ++ QUOTE :: tail)
    with ((head ++ QUOTE :: ip) ++ QUOTE :: tail)
    by (now rewrite <- app_assoc).
  rewrite (rindex_of_last (head ++ QUOTE :: ip) tail 0 (-1) Qt).
  rewrite length_map. repeat (rewrite ?length_app; cbn [length]).
  set (h := length head). set (n := length ip). set (t := length tail).
  unfold clamp_index.
  destruct (Z.ltb_spec (0 + Z.of_nat h + 1) 0) as [?|_]; [lia|].
  destruct (Z.ltb_spec (0 + Z.of_nat (h + S n)) 0) as [?|_]; [lia|].
  rewrite !Z.min_l by lia.
  replace (Z.to_nat (0 + Z.of_nat (h + S n) - (0 + Z.of_nat h + 1))) with n by lia.
  replace (Z.to_nat (0 + Z.of_nat h + 1)) with (length (head ++ [QUOTE]))
    by (rewrite length_app; cbn [length]; subst h; lia).
  rewrite skipn_map, firstn_map, concat_singles.
  replace ((head ++ QUOTE :: ip) ++ QUOTE :: tail)
    with ((head ++ [QUOTE]) ++ ip ++ QUOTE :: tail)
    by (now rewrite <- !app_assoc).
  rewrite skipn_app, skipn_all, Nat.sub_diag. cbn [skipn app].
  subst n. rewrite firstn_app, firstn_all, Nat.sub_diag. cbn [firstn].
  apply app_nil_r.
Qed.

Lemma get_ip_lines_first (pre post : list bytes) (line : bytes) :
  Forall (fun l => contains (b "CIFSR:STAIP") l = false) pre ->
  contains (b "CIFSR:STAIP") line = true ->
  get_ip_lines (pre ++ line :: post) =
  Some (str_slice (str_find QUOTE line + 1) (str_rfind QUOTE line) line).
Proof.
  intros Hpre Hline. induction Hpre as [|l pre Hl _ IH]; cbn [app get_ip_lines].
  - now rewrite Hline.
  - now rewrite Hl.
Qed.

End GetIpFacts.

Module GetIpProperties.
Import Py Hw ESPC3 PyFacts DecimalFacts ParserFacts GetIpFacts Behaviour Scenario.

(** X21. [get_ip] never raises.  When the exchange fails, or when the
    reply cannot be decoded, it prints the failure and returns [None],
    where [local_ip] would raise. *)
Theorem get_ip_never_raises (self : self_t) (w : World) :
  (exists v w', get_ip self w = (Ok v, w'))
  /\ (forall e w1,
        send self (b "AT+CIFSR") 20 3 w = (Raise e, w1) ->
        get_ip self w =
          (Ok None, print [PStr (b "Error getting the IP: "); PExn e] w1))
  /\ (forall reply w1,
        send self (b "AT+CIFSR") 20 3 w = (Ok reply, w1) ->
        utf8_check reply = false ->
        get_ip self w =
          (Ok None, print [PStr (b "Error getting the IP: "); PExn UnicodeError] w1)).
Proof.
  unfold get_ip, try_except, bind, lift, act, ret, str_utf8, is_Exception.
  destruct (send self (b "AT+CIFSR") 20 3 w) as [[reply|e] w1].
  - destruct (utf8_check reply) eqn:E.
    + split; [eauto|]. split; [discriminate|]. intros r w2 [= <- <-]. congruence.
    + split; [eauto|]. split; [discriminate|]. now intros r w2 [= <- <-] _.
  - split; [eauto|]. split; [|discriminate]. now intros e' w2 [= <- <-].
Qed.

(** X22. From the first line of the decoded reply that holds the text
    [CIFSR:STAIP], [get_ip] returns what stands between the first and the
    last quote character of the line. *)
Theorem get_ip_reads_between_quotes
        (self : self_t) (w w1 : World) (reply : bytes) (pre post : list bytes)
        (head ip tail : bytes) :
  send self (b "AT+CIFSR") 20 3 w = (Ok reply, w1) ->
  utf8_check reply = true ->
  splitlines reply = pre ++ (head ++ [QUOTE] ++ ip ++ [QUOTE] ++ tail) :: post ->
  Forall (fun l => contains (b "CIFSR:STAIP") l = false) pre ->
  contains (b "CIFSR:STAIP") (head ++ [QUOTE] ++ ip ++ [QUOTE] ++ tail) = true ->
  Forall ascii head -> Forall ascii ip -> Forall ascii tail ->
  ~ In QUOTE head -> ~ In QUOTE tail ->
  get_ip self w = (Ok (Some ip), w1).
Proof.
  intros Hs Hutf Hsplit Hpre Hmark Hh Hi Ht Qh Qt.
  unfold get_ip, try_except, bind, lift, ret, str_utf8.
  rewrite Hs, Hutf, Hsplit.
  pose proof (get_ip_lines_first pre post _ Hpre Hmark) as E1.
  pose proof (str_slice_between head ip tail Hh Hi Ht Qh Qt) as E2.
  cbv zeta in E2.
  exact (f_equal (fun v => (Ok v, w1)) (eq_trans E1 (f_equal Some E2))).
Qed.

Lemma get_ip_reads_between_quotes_witness :
  get_ip (mkSelf false) address_world =
    (Ok (Some (b "192.168.1.7")),
     snd (send (mkSelf false) (b "AT+CIFSR") 20 3 address_world)).
Proof.
  apply (get_ip_reads_between_quotes (mkSelf false) address_world
           (snd (send (mkSelf false) (b "AT+CIFSR") 20 3 address_world))
           (address_reply ++ CRLF ++ CRLF)
           [] [STAMAC_prefix ++ b "aa:bb:cc:dd:ee:ff" ++ [QUOTE]; []]
           (b "+CIFSR:STAIP,") (b "192.168.1.7") []);
    try (vm_compute; reflexivity); try (repeat constructor);
    intros H; repeat (destruct H as [H|H]; [discriminate|]); exact H.
Defined.

End GetIpProperties.
